(** * seek_localize.coordsystem: coordinate conversions of electrode sensors

    A shallow embedding of [src/seek_localize/coordsystem.py]:
    [convert_coord_space], [convert_coord_units], [_handle_tkras_trans] and
    [_handle_mni_trans], together with the parts of numpy, nibabel and mne
    that these four functions call.

    Conventions of the embedding.
    - A float64 value is modelled by the rational it denotes ([Qc]), an
      int64 value by a [Z] in range. The float operations are modelled by
      the exact operations they round: a formula stated here is the
      formula the program evaluates in float64, and nothing is claimed about
      how rounding errors accumulate (no statement that a float round trip
      is the identity is made).
    - An [N x 3] array is a list of triples, a [4 x 4] array a quadruple of
      quadruples; the dtype of a coordinate array is its constructor.
    - [Sensors] objects live in a heap and are passed by reference, as in
      Python; the filesystem and the external readers are a read-only
      [World]; exceptions, warnings, prints and file reads are recorded. *)

From Stdlib Require Import ZArith QArith Qcanon Qround Qabs Field Lia Lqa.
From stdpp Require Import base option list strings.

Local Open Scope Z_scope.
Local Open Scope Qc_scope.

(** ** Numbers *)

(** The float64 value of an integer literal. *)
Definition fl (z : Z) : Qc := Q2Qc (inject_Z z).

(** [a <= b] on floats, as a boolean. *)
Definition Qc_leb (a b : Qc) : bool := Qle_bool (this a) (this b).

(** [a == b] on floats, as a boolean. *)
Definition Qc_eqb (a b : Qc) : bool := Qeq_bool (this a) (this b).

(** [abs(a)]. *)
Definition Qc_abs (a : Qc) : Qc := Q2Qc (Qabs (this a)).

(** [np.round] of one element: the nearest integer, a tie going to the
    even neighbour. The result is an integral float, given here by the
    integer it denotes; the cast [.astype(int)] is [astype_int64] below. *)
Definition np_round1 (q : Qc) : Z :=
  let f := Qfloor (this q) in
  match Qccompare (q - fl f) (Q2Qc (1 # 2)) with
  | Lt => f
  | Gt => (f + 1)%Z
  | Eq => if Z.even f then f else (f + 1)%Z
  end.

(** ** Arrays *)

Definition vec3 (A : Type) : Type := (A * A * A)%type.
Definition vec4 (A : Type) : Type := (A * A * A * A)%type.

(** A [4 x 4] float array, row by row. *)
Definition mat4 : Type := vec4 (vec4 Qc).

(** An [N x 3] coordinate array with its dtype. *)
Inductive ndarray : Type :=
  | NdFloat (rows : list (vec3 Qc))
  | NdInt (rows : list (vec3 Z)).

Definition vec3_map {A B} (f : A -> B) (p : vec3 A) : vec3 B :=
  let '(a, b, c) := p in (f a, f b, f c).

(** The values of an array as floats (what numpy does to an int operand
    that meets a float one). *)
Definition as_float (a : ndarray) : list (vec3 Qc) :=
  match a with
  | NdFloat rows => rows
  | NdInt rows => map (vec3_map fl) rows
  end.

(** Number of points, [a.shape[0]]. *)
Definition n_points (a : ndarray) : nat := length (as_float a).

(** The least int64, which the cast of a float64 outside the int64 range
    gives. *)
Definition int64_min : Z := (- 2 ^ 63)%Z.

(** [.astype(int)] of an integral float64: the integer itself when it is an
    int64, [int64_min] otherwise. *)
Definition astype_int64 (r : Z) : Z :=
  if ((int64_min <=? r) && (r <? 2 ^ 63))%Z then r else int64_min.

(** [np.round(a).astype(int)]. *)
Definition np_round_astype_int (a : ndarray) : ndarray :=
  NdInt (map (vec3_map (fun q => astype_int64 (np_round1 q))) (as_float a)).

(** [nibabel.affines.apply_affine] on one point:
    [rzs = aff[:-1, :-1]], [trans = aff[:-1, -1]],
    [res = dot(pt, rzs.T) + trans]; the last row of [aff] is not read. *)
Definition apply_affine1 (aff : mat4) (p : vec3 Qc) : vec3 Qc :=
  let '(r0, r1, r2, _) := aff in
  let '(x, y, z) := p in
  let row '(a, b, c, t) := x * a + y * b + z * c + t in
  (row r0, row r1, row r2).

(** [nibabel.affines.apply_affine(aff, pts)]; the result is a float array. *)
Definition apply_affine (aff : mat4) (pts : ndarray) : ndarray :=
  NdFloat (map (apply_affine1 aff) (as_float pts)).

(** *** Determinant and inverse *)

Definition det3 (a b c d e f g h i : Qc) : Qc :=
  a * (e * i - f * h) - b * (d * i - f * g) + c * (d * h - e * g).

Definition det4 (m : mat4) : Qc :=
  let '((a0, a1, a2, a3), (b0, b1, b2, b3),
        (c0, c1, c2, c3), (d0, d1, d2, d3)) := m in
    a0 * det3 b1 b2 b3 c1 c2 c3 d1 d2 d3
  - a1 * det3 b0 b2 b3 c0 c2 c3 d0 d2 d3
  + a2 * det3 b0 b1 b3 c0 c1 c3 d0 d1 d3
  - a3 * det3 b0 b1 b2 c0 c1 c2 d0 d1 d2.

(** The transposed matrix of cofactors. *)
Definition adjugate4 (m : mat4) : mat4 :=
  let '((a0, a1, a2, a3), (b0, b1, b2, b3),
        (c0, c1, c2, c3), (d0, d1, d2, d3)) := m in
  ((   det3 b1 b2 b3 c1 c2 c3 d1 d2 d3,
     - det3 a1 a2 a3 c1 c2 c3 d1 d2 d3,
       det3 a1 a2 a3 b1 b2 b3 d1 d2 d3,
     - det3 a1 a2 a3 b1 b2 b3 c1 c2 c3),
   ( - det3 b0 b2 b3 c0 c2 c3 d0 d2 d3,
       det3 a0 a2 a3 c0 c2 c3 d0 d2 d3,
     - det3 a0 a2 a3 b0 b2 b3 d0 d2 d3,
       det3 a0 a2 a3 b0 b2 b3 c0 c2 c3),
   (   det3 b0 b1 b3 c0 c1 c3 d0 d1 d3,
     - det3 a0 a1 a3 c0 c1 c3 d0 d1 d3,
       det3 a0 a1 a3 b0 b1 b3 d0 d1 d3,
     - det3 a0 a1 a3 b0 b1 b3 c0 c1 c3),
   ( - det3 b0 b1 b2 c0 c1 c2 d0 d1 d2,
       det3 a0 a1 a2 c0 c1 c2 d0 d1 d2,
     - det3 a0 a1 a2 b0 b1 b2 d0 d1 d2,
       det3 a0 a1 a2 b0 b1 b2 c0 c1 c2)).

Definition vec4_map {A B} (f : A -> B) (p : vec4 A) : vec4 B :=
  let '(a, b, c, d) := p in (f a, f b, f c, f d).

Definition mat4_map (f : Qc -> Qc) (m : mat4) : mat4 := vec4_map (vec4_map f) m.

(** The product of two [4 x 4] arrays. *)
Definition mat4_mul (m n : mat4) : mat4 :=
  let '((n00, n01, n02, n03), (n10, n11, n12, n13),
        (n20, n21, n22, n23), (n30, n31, n32, n33)) := n in
  let row '(a, b, c, d) :=
    (a * n00 + b * n10 + c * n20 + d * n30,
     a * n01 + b * n11 + c * n21 + d * n31,
     a * n02 + b * n12 + c * n22 + d * n32,
     a * n03 + b * n13 + c * n23 + d * n33) in
  vec4_map row m.

Definition mat4_id : mat4 :=
  ((1, 0, 0, 0), (0, 1, 0, 0), (0, 0, 1, 0), (0, 0, 0, 1)).

(** [np.linalg.inv]: the inverse, or [None] for the [LinAlgError] numpy
    raises. numpy raises when a pivot of its LU factorisation is exactly
    zero, which for the matrices used below (a zero row, the fallback
    matrix) is the case exactly when the determinant is zero; for other
    matrices the float factorisation may differ from this test, and no
    statement below depends on it. *)
Definition np_linalg_inv (m : mat4) : option mat4 :=
  if Qc_eqb (det4 m) 0 then None
  else Some (mat4_map (fun c => c / det4 m) (adjugate4 m)).

(** A matrix of homogeneous coordinates: the last row is [0 0 0 1]. *)
Definition affine_form (m : mat4) : Prop :=
  let '(_, _, _, r3) := m in r3 = (0, 0, 0, 1).

(** [np.isclose(a, b)] with numpy's defaults [rtol=1e-05], [atol=1e-08]:
    elementwise [abs(a - b) <= atol + rtol * abs(b)]. *)
Definition isclose1 (a b : Qc) : bool :=
  Qc_leb (Qc_abs (a - b))
         (Q2Qc (1 # 100000000) + Q2Qc (1 # 100000) * Qc_abs b).

Definition vec4_zip {A B C} (f : A -> B -> C) (p : vec4 A) (q : vec4 B) : vec4 C :=
  let '(a, b, c, d) := p in
  let '(a', b', c', d') := q in (f a a', f b b', f c c', f d d').

(** The result is an array of booleans of the operands' shape. *)
Definition np_isclose (a b : mat4) : vec4 (vec4 bool) :=
  vec4_zip (vec4_zip isclose1) a b.

Definition vec4_list {A} (p : vec4 A) : list A :=
  let '(a, b, c, d) := p in [a; b; c; d].

(** The elements of a [4 x 4] array, [a.flat]. *)
Definition flat {A} (m : vec4 (vec4 A)) : list A :=
  concat (vec4_list (vec4_map vec4_list m)).

(** ** Exceptions, objects and effects *)

Inductive exn : Type :=
  | ValueError (msg : string)
  | RuntimeError (msg : string)
  | TypeError (msg : string)
  | IOError (msg : string)
  | FileNotFoundError (msg : string)
  | LinAlgError (msg : string)
  | KeyError (msg : string)
  | InvalidReference.  (* a reference to no object: not reachable from Python *)

Inductive result (A : Type) : Type :=
  | Ok (a : A)
  | Err (e : exn).
Arguments Ok {A} a.
Arguments Err {A} e.

(** Modelled from the spec: the class [seek_localize.Sensors] is not part of
    src/. The source reads and writes it through [get_coords], [set_coords],
    [coord_unit], [intended_for] and [__dict__] only; [coords] stands for
    the [x], [y], [z] columns behind [get_coords]/[set_coords], [ch_names]
    and [coord_system] for the attributes the conversions do not touch. *)
Record Sensors : Type := {
  ch_names : list string;
  coords : ndarray;
  coord_system : string;
  coord_unit : string;
  intended_for : option string
}.

Definition get_coords (s : Sensors) : ndarray := coords s.

Definition with_coords (c : ndarray) (s : Sensors) : Sensors :=
  {| ch_names := ch_names s; coords := c; coord_system := coord_system s;
     coord_unit := coord_unit s; intended_for := intended_for s |}.

Definition with_coord_unit (u : string) (s : Sensors) : Sensors :=
  {| ch_names := ch_names s; coords := coords s; coord_system := coord_system s;
     coord_unit := u; intended_for := intended_for s |}.

(** What [nb.load] gives: [img.affine], [img.header.get_vox2ras_tkr()]
    where the header has that method ([None]: [AttributeError]), and the
    name of the header's class, which the text of that error carries. *)
Record Image : Type := {
  affine : mat4;
  vox2ras_tkr : option mat4;
  header_class : string
}.

(** [mne.transforms.Transform]: a dict with the keys [from], [to] and
    [trans], of which the matrix under [trans] is kept here;
    [_read_mri_info] returns three of them, not three arrays. *)
Record Transform : Type := {
  trans : mat4
}.

(** The second operand of [np.isclose]: an array, or an object that is
    not one. *)
Inductive array_like : Type :=
  | Ndarray (m : mat4)
  | Mapping (t : Transform).

(** The read-only surroundings of a call: files and external readers, and
    the repository's helper [seek_localize.utils._scale_coordinates], which
    is not part of src/ and is taken as a parameter. *)
Record World : Type := {
  nb_images : string -> option Image;           (* files [nb.load] reads *)
  entities_subject : string -> option string;   (* [get_entities_from_fname(p).get("subject")] *)
  op_isfile : string -> bool;                   (* [os.path.isfile] *)
  read_mri_info : string -> Transform;          (* third component of [_read_mri_info(path)] *)
  read_talxfm : string -> option string -> mat4; (* [read_talxfm(subject, subjects_dir)]; not reached *)
  sensors_str : Sensors -> string;              (* [str(sensors)], of the class that is not in src/ *)
  isclose_type_error_msg : string;              (* text of numpy's [TypeError] for a dict operand *)
  _scale_coordinates : ndarray -> string -> string -> result ndarray
}.

Inductive event : Type :=
  | EvLoad (path : string)
  | EvReadMriInfo (path : string)
  | EvReadTalxfm (subject : string)
  | EvWarn (msg : string)
  | EvPrint (msg : string)
  | EvPrintTkr (vox2ras_tkr : mat4).
    (* [print(f"Using Vox2TKRAS affine: {vox2ras_tkr}.")], kept with the
       matrix that numpy formats into the text *)

Definition loc : Type := nat.

Record state : Type := {
  heap : list Sensors;
  log : list event
}.

(** Computations that read and write the heap, record events, and return a
    value or raise. *)
Definition M (A : Type) : Type := state -> result A * state.

Definition ret {A} (a : A) : M A := fun st => (Ok a, st).

Definition raise {A} (e : exn) : M A := fun st => (Err e, st).

Definition bind {A B} (m : M A) (k : A -> M B) : M B :=
  fun st =>
    match m st with
    | (Ok a, st') => k a st'
    | (Err e, st') => (Err e, st')
    end.

Notation "x <- m ;; k" := (bind m (fun x => k))
  (at level 100, m at next level, right associativity).
Notation "m ;;; k" := (bind m (fun _ => k))
  (at level 100, right associativity).

Definition lift {A} (r : result A) : M A := fun st => (r, st).

Definition emit (e : event) : M unit :=
  fun st => (Ok tt, {| heap := heap st; log := log st ++ [e] |}).

(** Reading through a reference. *)
Definition deref (l : loc) : M Sensors :=
  fun st =>
    match heap st !! l with
    | Some s => (Ok s, st)
    | None => (Err InvalidReference, st)
    end.

(** The constructor call on [sensors.__dict__] (keyword splat): a new
    object with the attributes of [s]. *)
Definition new_Sensors (s : Sensors) : M loc :=
  fun st => (Ok (length (heap st)), {| heap := heap st ++ [s]; log := log st |}).

(** In-place update of the object behind a reference. *)
Definition update (l : loc) (f : Sensors -> Sensors) : M unit :=
  fun st =>
    match heap st !! l with
    | Some s => (Ok tt, {| heap := <[l := f s]> (heap st); log := log st |})
    | None => (Err InvalidReference, st)
    end.

(** [sensors.set_coords(elec_coords)]. *)
Definition set_coords (l : loc) (c : ndarray) : M unit := update l (with_coords c).

(** [sensors.coord_unit = to_coord]. *)
Definition set_coord_unit (l : loc) (u : string) : M unit := update l (with_coord_unit u).

(** ** Messages of the exceptions *)

Definition none_path_msg : string :=
  "stat: path should be string, bytes, os.PathLike or integer, not NoneType".

Definition ambiguous_truth_msg : string :=
  "The truth value of an array with more than one element is ambiguous. Use a.any() or a.all()".

Definition need_intended_for_msg (w : World) (s : Sensors) : string :=
  "Need IntendedFor Image filepath for sensors " +:+ sensors_str w s +:+ ".".

Definition frame_mismatch_msg (img_fpath : string) : string :=
  "You are trying to convert data to MNI coordinates for " +:+ img_fpath +:+
  ", but this does not correspond to the original T1.mgz file of FreeSurfer. This is a limitation...".

(** The second [ValueError] of [convert_coord_space] (lines 94-100). *)
Definition tag_not_frame_msg : string :=
  "Converting coordinates requires sensor coordinate space to be in 'voxel' space for a particular coordinate system. Please use one of ['mri', 'tkras', 'mni'] coordinate systems. ".

(** The [RuntimeError] of [_handle_mni_trans] for a path without a subject
    (lines 296-302). *)
Definition no_subject_msg (img_fpath : string) : string :=
  "Could not interpret the subject from IntendedFor Image filepath " +:+ img_fpath +:+
  ". This file path is possibly not named according to BIDS.".

Definition units_not_accepted_msg (to_coord : string) : string :=
  "Converting coordinates to " +:+ to_coord +:+
  " is not accepted. Please use one of ['mm', 'mri'] coordinate types.".

Definition frames_not_accepted_msg (to_coord : string) : string :=
  "Converting coordinates to " +:+ to_coord +:+
  " is not accepted. Please use one of ['mri', 'tkras', 'mni'] coordinate systems.".

(** The warning of [_handle_tkras_trans], which ends with the text of the
    [AttributeError] it caught. *)
Definition tkr_warning_msg (img : Image) : string :=
  "Unable to programmatically get vox2ras TKR, so setting manually. Error: '" +:+
  header_class img +:+ "' object has no attribute 'get_vox2ras_tkr'".

(** ** External calls *)

(** [nb.load(path)]. A path that is [None] makes nibabel raise a
    [TypeError] from [os.stat]; a path [nb.load] cannot read a
    [FileNotFoundError]. *)
Definition nb_load (w : World) (path : option string) : M Image :=
  match path with
  | None => raise (TypeError none_path_msg)
  | Some p =>
      match nb_images w p with
      | Some img => emit (EvLoad p) ;;; ret img
      | None => raise (FileNotFoundError ("No such file or no access: '" +:+ p +:+ "'"))
      end
  end.

(** [b.startswith("/")]. *)
Definition starts_with_sep (b : string) : bool := String.prefix "/" b.

(** [path.endswith("/")]. *)
Fixpoint ends_with_sep (path : string) : bool :=
  match path with
  | EmptyString => false
  | String c EmptyString => String.eqb (String c EmptyString) "/"
  | String _ rest => ends_with_sep rest
  end.

(** One step of [posixpath.join]: an absolute component replaces what came
    before; a separator is added unless the path is empty or ends with
    one. *)
Definition join_component (path b : string) : string :=
  if starts_with_sep b then b
  else if (String.eqb path EmptyString || ends_with_sep path)%bool then path +:+ b
  else path +:+ "/" +:+ b.

(** [os.path.join(a, *ps)] on a POSIX system. *)
Definition os_path_join (a : string) (ps : list string) : string :=
  fold_left join_component ps a.

(** [os.path.join(d, subject, "mri", name)]. *)
Definition volume_path (d subject name : string) : string :=
  os_path_join d [subject; "mri"; name].

(** [os.path.join(subjects_dir, subject, "mri", name)];
    [subjects_dir=None] raises a [TypeError]. *)
Definition op_join (subjects_dir : option string) (subject name : string) : M string :=
  match subjects_dir with
  | None => raise (TypeError "expected str, bytes or os.PathLike object, not NoneType")
  | Some d => ret (volume_path d subject name)
  end.

(** [np.linalg.inv] as a computation. *)
Definition linalg_inv (m : mat4) : M mat4 :=
  match np_linalg_inv m with
  | Some n => ret n
  | None => raise (LinAlgError "Singular matrix")
  end.

(** [np.isclose(a, b)] for whatever [b] is: the elementwise comparison
    for an array; for a dict the [TypeError] of the first ufunc that meets
    it, whose text depends on the version of numpy. *)
Definition np_isclose_any (w : World) (a : mat4) (b : array_like)
    : M (vec4 (vec4 bool)) :=
  match b with
  | Ndarray m => ret (np_isclose a m)
  | Mapping _ => raise (TypeError (isclose_type_error_msg w))
  end.

(** The truth value of an array, [bool(a)]: defined for an array of one
    element only. *)
Definition array_truth (elems : list bool) : M bool :=
  match elems with
  | [b] => ret b
  | _ => raise (ValueError ambiguous_truth_msg)
  end.

(** ** Constants *)

(** Modelled from the spec: [seek_localize.config.MAPPING_COORD_FRAMES] is
    not part of src/; the frames are those the docstring of
    [convert_coord_space] and the spec name. *)
Definition MAPPING_COORD_FRAMES : list string := ["mri"; "tkras"; "mni"].

(** Modelled from the spec: [seek_localize.utils._scale_coordinates] is not
    part of src/; a linear scale factor between two physical units. Used
    where a [World] has to be given in full. *)
Definition spec_scale_coordinates (c : ndarray) (from to : string) : result ndarray :=
  let mm (u : string) : option Qc :=
    if String.eqb u "mm" then Some 1
    else if String.eqb u "cm" then Some (fl 10)
    else if String.eqb u "m" then Some (fl 1000)
    else None in
  match mm from, mm to with
  | Some a, Some b => Ok (NdFloat (map (vec3_map (fun v => v * (a / b))) (as_float c)))
  | _, _ => Err (KeyError "unit")
  end.

(** The matrix [_handle_tkras_trans] sets when the header has no
    [get_vox2ras_tkr]. *)
Definition fallback_vox2ras_tkr : mat4 :=
  ((- fl 1, 0, 0, fl 128),
   (0, 0, fl 1, - fl 128),
   (0, - fl 1, 0, fl 128),
   (0, 0, 0, fl 1)).

(** ** The four functions of coordsystem.py *)

(** [_handle_tkras_trans(elec_coords, img, revert_tkras, verbose)]. *)
Definition _handle_tkras_trans (elec_coords : ndarray) (img : Image)
    (revert_tkras verbose : bool) : M ndarray :=
  vox2ras_tkr <-
    match vox2ras_tkr img with
    | Some t => ret t
    | None =>
        emit (EvWarn (tkr_warning_msg img)) ;;;
        ret fallback_vox2ras_tkr
    end ;;
  (if verbose then emit (EvPrintTkr vox2ras_tkr) else ret tt) ;;;
  affine <- (if revert_tkras then linalg_inv vox2ras_tkr else ret vox2ras_tkr) ;;
  ret (apply_affine affine elec_coords).

(** [_handle_mni_trans(elec_coords, img_fpath, subjects_dir, revert_mni, verbose)]. *)
Definition _handle_mni_trans (w : World) (elec_coords : ndarray) (img_fpath : string)
    (subjects_dir : option string) (revert_mni verbose : bool) : M ndarray :=
  match entities_subject w img_fpath with
  | None =>
      raise (RuntimeError (no_subject_msg img_fpath))
  | Some subject =>
      path <- op_join subjects_dir subject "orig.mgz" ;;
      path <- (if negb (op_isfile w path)
               then op_join subjects_dir subject "T1.mgz" else ret path) ;;
      if negb (op_isfile w path) then raise (IOError ("mri not found: " +:+ path))
      else
        emit (EvReadMriInfo path) ;;;
        let mri_ras_t := read_mri_info w path in
        img <- nb_load w (Some img_fpath) ;;
        let intended_affine := affine img in
        isclose <- np_isclose_any w intended_affine (Mapping mri_ras_t) ;;
        close <- array_truth (flat isclose) ;;
        if negb close
        then raise (RuntimeError (frame_mismatch_msg img_fpath))
        else
          emit (EvReadTalxfm subject) ;;;
          let mri_mni_t := read_talxfm w subject subjects_dir in
          affine <- (if revert_mni then linalg_inv mri_mni_t else ret mri_mni_t) ;;
          ret (apply_affine affine elec_coords)
  end.

(** [convert_coord_space(sensors, to_coord, subjects_dir, verbose)]. *)
Definition convert_coord_space (w : World) (sensors : loc) (to_coord : string)
    (subjects_dir : option string) (verbose : bool) : M loc :=
  if negb (bool_decide (to_coord ∈ MAPPING_COORD_FRAMES))
  then raise (ValueError (frames_not_accepted_msg to_coord))
  else
    s <- deref sensors ;;
    if negb (bool_decide (coord_unit s ∈ MAPPING_COORD_FRAMES))
    then raise (ValueError tag_not_frame_msg)
    else if String.eqb to_coord (coord_unit s) then ret sensors
    else
      match intended_for s with
      | None => raise (RuntimeError (need_intended_for_msg w s))
      | Some img_fpath =>
          img <- nb_load w (Some img_fpath) ;;
          let elec_coords := get_coords s in
          (* first convert to standardized MRI coordinates *)
          elec_coords <-
            (if String.eqb (coord_unit s) "mni"
             then _handle_mni_trans w elec_coords img_fpath subjects_dir true verbose
             else if String.eqb (coord_unit s) "tkras"
             then _handle_tkras_trans elec_coords img true verbose
             else ret elec_coords) ;;
          (* next convert from standardized MRI coordinates to the target *)
          elec_coords <-
            (if String.eqb to_coord "mni"
             then _handle_mni_trans w elec_coords img_fpath subjects_dir false verbose
             else if String.eqb to_coord "tkras"
             then
               elec_coords <-
                 (if negb (bool_decide (coord_unit s ∈ ["mri"; "mni"]))
                  then lift (_scale_coordinates w elec_coords (coord_unit s) "mm")
                  else ret elec_coords) ;;
               _handle_tkras_trans elec_coords img false verbose
             else ret elec_coords) ;;
          (* recreate sensors *)
          sensors <- new_Sensors s ;;
          set_coords sensors elec_coords ;;;
          set_coord_unit sensors to_coord ;;;
          ret sensors
      end.

(** [convert_coord_units(sensors, to_coord, round, verbose)]. *)
Definition convert_coord_units (w : World) (sensors : loc) (to_coord : string)
    (round verbose : bool) : M loc :=
  if negb (bool_decide (to_coord ∈ ["mri"; "mm"]))
  then raise (ValueError (units_not_accepted_msg to_coord))
  else
    s <- deref sensors ;;
    if String.eqb to_coord (coord_unit s) then ret sensors
    else
      let img_fpath := intended_for s in
      img <- nb_load w img_fpath ;;
      let affine := affine img in
      inv_affine <- linalg_inv affine ;;
      let elec_coords := get_coords s in
      (if verbose then emit (EvPrint ("Converting coordinates from " +:+ coord_unit s
                                       +:+ " to " +:+ to_coord +:+ " using "
                                       +:+ default "None" img_fpath +:+ "."))
       else ret tt) ;;;
      elec_coords <-
        (if String.eqb to_coord "mri"
         then
           elec_coords <- lift (_scale_coordinates w elec_coords (coord_unit s) "mm") ;;
           ret (apply_affine inv_affine elec_coords)
         else if String.eqb to_coord "mm"
         then ret (apply_affine affine elec_coords)
         else ret elec_coords) ;;
      let elec_coords := if round then np_round_astype_int elec_coords else elec_coords in
      (* recreate sensors *)
      sensors <- new_Sensors s ;;
      set_coords sensors elec_coords ;;;
      set_coord_unit sensors to_coord ;;;
      ret sensors.

(** ** Vocabulary of the properties *)

(** The object a conversion leaves behind: the attributes of [s] with new
    coordinates and a new tag. *)
Definition converted (s : Sensors) (c : ndarray) (u : string) : Sensors :=
  with_coord_unit u (with_coords c s).

(** [to_frame(to_frame(P, f), P.frame)]: to frame [f] and back. *)
Definition space_round_trip (w : World) (sensors : loc) (f : string)
    (subjects_dir : option string) (verbose : bool) : M loc :=
  s <- deref sensors ;;
  there <- convert_coord_space w sensors f subjects_dir verbose ;;
  convert_coord_space w there (coord_unit s) subjects_dir verbose.


(** mni to tkras as two calls through mri. *)
Definition mni_mri_tkras (w : World) (sensors : loc)
    (subjects_dir : option string) (verbose : bool) : M loc :=
  hub <- convert_coord_space w sensors "mri" subjects_dir verbose ;;
  convert_coord_space w hub "tkras" subjects_dir verbose.

(** The coordinates of the object behind a reference. *)
Definition coords_at (st : state) (l : loc) : option ndarray :=
  coords <$> heap st !! l.

(** The objects of [st] are still there, unchanged, in [st']. *)
Definition objects_kept (st st' : state) : Prop :=
  forall (k : loc) (x : Sensors), heap st !! k = Some x -> heap st' !! k = Some x.

(** [_scale_coordinates] acts point by point. *)
Definition scale_pointwise (w : World) : Prop :=
  forall c u v c', _scale_coordinates w c u v = Ok c' ->
    exists g, as_float c' = map g (as_float c).


(** The subject's canonical volume is on disk under one of its two names. *)
Definition canonical_volume_exists (w : World) (d subject : string) : Prop :=
  op_isfile w (volume_path d subject "orig.mgz") = true \/
  op_isfile w (volume_path d subject "T1.mgz") = true.

(** The matrix [_handle_tkras_trans] works with: the header's, or the
    fallback. *)
Definition tkr_matrix (img : Image) : mat4 :=
  default fallback_vox2ras_tkr (vox2ras_tkr img).

(** The coordinates [convert_coord_units] computes before rounding, with
    what it needs to get there: a reference image that loads, an affine
    that inverts, and for target [mri] a scaling that succeeds. *)
Definition units_coords (w : World) (s : Sensors) (to : string) (c : ndarray) : Prop :=
  exists p img n,
    intended_for s = Some p /\
    nb_images w p = Some img /\
    np_linalg_inv (affine img) = Some n /\
    ((to = "mri" /\
      exists c1, _scale_coordinates w (coords s) (coord_unit s) "mm" = Ok c1 /\
                 c = apply_affine n c1) \/
     (to = "mm" /\ c = apply_affine (affine img) (coords s))).


(** [r] is an integer nearest to [q], and the even one where [q] lies
    halfway between two integers. *)
Definition nearest_even (q : Qc) (r : Z) : Prop :=
  (Qabs (this q - inject_Z r) <= 1 # 2)%Q /\
  (Qabs (this q - inject_Z r) == 1 # 2 -> Z.even r = true)%Q.

(** [z] is the int64 that the cast makes of the integral float [r]: [r]
    itself between [-2^63] and [2^63 - 1], and [-2^63] outside. *)
Definition int64_of (r z : Z) : Prop :=
  ((- 2 ^ 63 <= r < 2 ^ 63)%Z -> z = r) /\
  (~ (- 2 ^ 63 <= r < 2 ^ 63)%Z -> z = (- 2 ^ 63)%Z).

(** [z] is [q] rounded to the nearest integer and cast to int64. *)
Definition rounded_int64 (q : Qc) (z : Z) : Prop :=
  exists r, nearest_even q r /\ int64_of r z.

Definition rounded_point (p : vec3 Qc) (zp : vec3 Z) : Prop :=
  let '(x, y, z) := p in
  let '(i, j, k) := zp in
  rounded_int64 x i /\ rounded_int64 y j /\ rounded_int64 z k.

(** The array a unit conversion stores for the computed points [pts]: the
    points as floats, or with [round] an integer array of as many points,
    each rounded. *)
Definition stored (round : bool) (pts : list (vec3 Qc)) (c : ndarray) : Prop :=
  if round then exists zs, c = NdInt zs /\ Forall2 rounded_point pts zs
  else c = NdFloat pts.

(** One of the rows of [m] holds zeros only. *)
Definition has_zero_row (m : mat4) : Prop :=
  let '(r0, r1, r2, r3) := m in
  r0 = (0, 0, 0, 0) \/ r1 = (0, 0, 0, 0) \/ r2 = (0, 0, 0, 0) \/ r3 = (0, 0, 0, 0).


(** [m] leaves the heap alone, and a value it returns is the array [c]
    transformed point by point. *)
Definition pointwise_of (c : ndarray) (m : M ndarray) : Prop :=
  forall st r st', m st = (r, st') ->
    heap st' = heap st /\
    forall c', r = Ok c' -> exists g, as_float c' = map g (as_float c).

(** [l'] is an object of [st'] that was not in [st]: a copy of [s] retagged
    [to] whose points are those of [s], in order, each transformed. *)
Definition fresh_copy (st : state) (s : Sensors) (to : string)
    (l' : loc) (st' : state) : Prop :=
  heap st !! l' = None /\
  exists s',
    heap st' !! l' = Some s' /\
    ch_names s' = ch_names s /\
    coord_system s' = coord_system s /\
    intended_for s' = intended_for s /\
    coord_unit s' = to /\
    exists g, as_float (coords s') = map g (as_float (coords s)).

(** C9 as the specification words it, for the unit converter: a successful
    call returns an object that was not there before. *)
Definition returns_new_object (w : World) (st : state) (l : loc) (to : string)
    (round verbose : bool) : Prop :=
  forall l' st',
    convert_coord_units w l to round verbose st = (Ok l', st') ->
    heap st !! l' = None.

(** *** Concrete surroundings for examples *)

Definition t1w_path : string := "sub-01/anat/sub-01_T1w.nii".

(** An image of quarter-millimetre voxels without [get_vox2ras_tkr]. *)
Definition quarter_mm_image : Image :=
  {| affine := ((Q2Qc (1 # 4), 0, 0, 0), (0, Q2Qc (1 # 4), 0, 0),
                (0, 0, Q2Qc (1 # 4), 0), (0, 0, 0, 1));
     vox2ras_tkr := None;
     header_class := "Nifti1Header" |}.

(** A subjects directory [fs] with [fs/01/mri/T1.mgz], whose affine is that
    of the reference image. *)
Definition example_world : World :=
  {| nb_images := fun p => if String.eqb p t1w_path then Some quarter_mm_image else None;
     entities_subject := fun p => if String.eqb p t1w_path then Some "01" else None;
     op_isfile := fun p => String.eqb p "fs/01/mri/T1.mgz";
     read_mri_info := fun _ => {| trans := affine quarter_mm_image |};
     read_talxfm := fun _ _ => mat4_id;
     sensors_str := fun _ => "<Sensors>";
     isclose_type_error_msg :=
       "ufunc 'isfinite' not supported for the input types, and the inputs could not be safely coerced to any supported types according to the casting rule ''safe''";
     _scale_coordinates := spec_scale_coordinates |}.

Definition example_sensors (unit : string) (img : option string) : Sensors :=
  {| ch_names := ["LA1"]; coords := NdInt [(1, 0, 0)%Z];
     coord_system := "Other"; coord_unit := unit; intended_for := img |}.

Definition example_state (unit : string) (img : option string) : state :=
  {| heap := [example_sensors unit img]; log := [] |}.

(** ** Vocabulary of the further properties *)

(** The same surroundings with another [_scale_coordinates]. *)
Definition with_scale (f : ndarray -> string -> string -> result ndarray)
    (w : World) : World :=
  {| nb_images := nb_images w;
     entities_subject := entities_subject w;
     op_isfile := op_isfile w;
     read_mri_info := read_mri_info w;
     read_talxfm := read_talxfm w;
     sensors_str := sensors_str w;
     isclose_type_error_msg := isclose_type_error_msg w;
     _scale_coordinates := f |}.

(** The exactly-one-side-is-mni conversions. *)
Definition involves_mni (s : Sensors) (to : string) : Prop :=
  to <> coord_unit s /\ (to = "mni" \/ coord_unit s = "mni").

(** Two computations that, started on the same objects, give the same
    result and the same objects, whatever the logs are. *)
Definition log_blind {A} (m m' : M A) : Prop :=
  forall st st', heap st = heap st' ->
    fst (m st) = fst (m' st') /\ heap (snd (m st)) = heap (snd (m' st')).

(** * Proofs *)

(** ** Numbers and arrays *)

Lemma Qc_eqb_eq (a b : Qc) : Qc_eqb a b = true <-> a = b.
Proof.
  unfold Qc_eqb. rewrite Qeq_bool_iff. split.
  - apply Qc_is_canon.
  - intros ->. reflexivity.
Qed.

Lemma np_linalg_inv_left (m n : mat4) :
  np_linalg_inv m = Some n -> mat4_mul n m = mat4_id.
Proof.
  unfold np_linalg_inv.
  destruct (Qc_eqb (det4 m) 0) eqn:Hd; [discriminate|].
  intros [= <-].
  assert (Hne : det4 m <> 0).
  { intros H. apply Qc_eqb_eq in H. congruence. }
  destruct m as [[[[[[a0 a1] a2] a3] [[[b0 b1] b2] b3]]
                   [[[c0 c1] c2] c3]] [[[d0 d1] d2] d3]].
  unfold mat4_id, mat4_mul, mat4_map, vec4_map, adjugate4.
  unfold det4 in *. unfold det3 in *.
  repeat f_equal; field; exact Hne.
Qed.

Lemma np_linalg_inv_det (m n : mat4) :
  np_linalg_inv m = Some n ->
  det4 m <> 0 /\ n = mat4_map (fun c => c / det4 m) (adjugate4 m).
Proof.
  unfold np_linalg_inv.
  destruct (Qc_eqb (det4 m) 0) eqn:Hd; [discriminate|].
  intros [= <-]. split; [|reflexivity].
  intros H. apply Qc_eqb_eq in H. congruence.
Qed.

Lemma np_linalg_inv_Some (m : mat4) :
  det4 m <> 0 -> exists n, np_linalg_inv m = Some n.
Proof.
  intros H. unfold np_linalg_inv.
  destruct (Qc_eqb (det4 m) 0) eqn:Hd; [|eauto].
  apply Qc_eqb_eq in Hd. contradiction.
Qed.

(** In exact arithmetic the inverse undoes the affine, one point at a
    time; used below to read off the inverse of the fallback matrix. *)
Lemma apply_affine1_inv_l (m n : mat4) (p : vec3 Qc) :
  affine_form m -> np_linalg_inv m = Some n ->
  apply_affine1 n (apply_affine1 m p) = p.
Proof.
  intros Haff Hinv. apply np_linalg_inv_det in Hinv as [Hne ->].
  destruct m as [[[[[[a0 a1] a2] a3] [[[b0 b1] b2] b3]]
                   [[[c0 c1] c2] c3]] [[[d0 d1] d2] d3]].
  destruct p as [[x y] z].
  unfold affine_form in Haff. injection Haff as -> -> -> ->.
  unfold apply_affine1, mat4_map, vec4_map, adjugate4.
  unfold det4 in *. unfold det3 in *.
  repeat f_equal; field; contradict Hne;
    (etransitivity; [|exact Hne]); ring.
Qed.

Lemma as_float_apply_affine (m : mat4) (c : ndarray) :
  as_float (apply_affine m c) = map (apply_affine1 m) (as_float c).
Proof. reflexivity. Qed.

Lemma n_points_apply_affine (m : mat4) (c : ndarray) :
  n_points (apply_affine m c) = n_points c.
Proof. unfold n_points. by rewrite as_float_apply_affine, length_map. Qed.

Lemma n_points_round (c : ndarray) : n_points (np_round_astype_int c) = n_points c.
Proof. unfold n_points, np_round_astype_int. simpl. by rewrite !length_map. Qed.

(** [np.round] on a few values: ties go to the even neighbour. *)
Example np_round1_values :
  map np_round1 [Q2Qc (1 # 4); Q2Qc (1 # 2); Q2Qc (3 # 2); Q2Qc (5 # 2);
                 Q2Qc (-1 # 2); Q2Qc (-3 # 2); Q2Qc (7 # 4); Q2Qc (-7 # 4)]
  = [0; 0; 2; 2; 0; -2; 2; -2]%Z.
Proof. vm_compute. reflexivity. Qed.

(** A zero row stays a zero row under elimination: the factorisation ends
    on a zero pivot. *)
Lemma has_zero_row_singular (m : mat4) : has_zero_row m -> np_linalg_inv m = None.
Proof.
  intros H. unfold np_linalg_inv.
  assert (Hdet : det4 m = 0).
  { destruct m as [[[[[[a0 a1] a2] a3] [[[b0 b1] b2] b3]]
                     [[[c0 c1] c2] c3]] [[[d0 d1] d2] d3]].
    unfold has_zero_row in H. unfold det4, det3.
    destruct H as [H|[H|[H|H]]]; injection H as -> -> -> ->; ring. }
  by rewrite (proj2 (Qc_eqb_eq _ _) Hdet).
Qed.

(** *** Rounding and the cast to int64 *)

(** The cast on the edges of the int64 range. *)
Example astype_int64_values :
  map astype_int64 [0; 2 ^ 63 - 1; 2 ^ 63; 2 ^ 64; - 2 ^ 63; - 2 ^ 63 - 1]%Z
  = [0; 2 ^ 63 - 1; - 2 ^ 63; - 2 ^ 63; - 2 ^ 63; - 2 ^ 63]%Z.
Proof. vm_compute. reflexivity. Qed.

Lemma this_minus_fl (q : Qc) (z : Z) : (this (q - fl z) == this q - inject_Z z)%Q.
Proof.
  unfold Qcminus, Qcplus, Qcopp, fl, Q2Qc. cbn [this].
  rewrite !Qred_correct. reflexivity.
Qed.

Lemma np_round1_nearest_even (q : Qc) : nearest_even q (np_round1 q).
Proof.
  unfold nearest_even, np_round1.
  pose proof (Qfloor_le (this q)) as Hlo.
  pose proof (Qlt_floor (this q)) as Hhi.
  rewrite inject_Z_plus in Hhi. change (inject_Z 1) with 1%Q in Hhi.
  set (f := Qfloor (this q)) in *.
  pose proof (this_minus_fl q f) as Hd.
  assert (Hhalf : (this (Q2Qc (1 # 2)) == 1 # 2)%Q) by apply Qred_correct.
  unfold Qccompare.
  destruct (this (q - fl f) ?= this (Q2Qc (1 # 2)))%Q eqn:Hc;
    [apply Qeq_alt in Hc|apply Qlt_alt in Hc|apply Qgt_alt in Hc];
    rewrite Hd, Hhalf in Hc; clear Hd Hhalf.
  - destruct (Z.even f) eqn:He.
    + split; [|done]. apply Qabs_Qle_condition. lra.
    + rewrite inject_Z_plus. change (inject_Z 1) with 1%Q. split.
      * apply Qabs_Qle_condition. lra.
      * intros _. rewrite Z.add_1_r, Z.even_succ, <- Z.negb_even, He. reflexivity.
  - split.
    + apply Qabs_Qle_condition. lra.
    + intros Habs. exfalso. revert Habs. apply Qabs_case; intros; lra.
  - rewrite inject_Z_plus. change (inject_Z 1) with 1%Q. split.
    + apply Qabs_Qle_condition. lra.
    + intros Habs. exfalso. revert Habs. apply Qabs_case; intros; lra.
Qed.

Lemma astype_int64_int64_of (r : Z) : int64_of r (astype_int64 r).
Proof.
  unfold int64_of, astype_int64, int64_min.
  destruct (Z.leb_spec (- 2 ^ 63) r), (Z.ltb_spec r (2 ^ 63)); cbn [andb]; lia.
Qed.

Lemma nearest_even_unique (q : Qc) (r1 r2 : Z) :
  nearest_even q r1 -> nearest_even q r2 -> r1 = r2.
Proof.
  intros [H1 E1] [H2 E2].
  apply Qabs_Qle_condition in H1 as H1'. apply Qabs_Qle_condition in H2 as H2'.
  assert (Hdiff : (-1 <= inject_Z r1 - inject_Z r2 <= 1)%Q) by lra.
  destruct (Z.lt_trichotomy r1 r2) as [Hlt|[->|Hgt]]; [|done|].
  - assert (r2 = r1 + 1)%Z as ->.
    { assert (inject_Z r2 <= inject_Z (r1 + 1))%Q by (rewrite inject_Z_plus; change (inject_Z 1) with 1%Q; lra).
      rewrite <- Zle_Qle in H. lia. }
    rewrite inject_Z_plus in *. change (inject_Z 1) with 1%Q in *.
    assert (Ha : (Qabs (this q - inject_Z r1) == 1 # 2)%Q).
    { rewrite Qabs_pos by lra. lra. }
    assert (Hb : (Qabs (this q - (inject_Z r1 + 1)) == 1 # 2)%Q).
    { rewrite Qabs_neg by lra. lra. }
    specialize (E1 Ha). specialize (E2 Hb).
    rewrite Z.add_1_r, Z.even_succ, <- Z.negb_even, E1 in E2. discriminate.
  - assert (r1 = r2 + 1)%Z as ->.
    { assert (inject_Z r1 <= inject_Z (r2 + 1))%Q by (rewrite inject_Z_plus; change (inject_Z 1) with 1%Q; lra).
      rewrite <- Zle_Qle in H. lia. }
    rewrite inject_Z_plus in *. change (inject_Z 1) with 1%Q in *.
    assert (Ha : (Qabs (this q - inject_Z r2) == 1 # 2)%Q).
    { rewrite Qabs_pos by lra. lra. }
    assert (Hb : (Qabs (this q - (inject_Z r2 + 1)) == 1 # 2)%Q).
    { rewrite Qabs_neg by lra. lra. }
    specialize (E2 Ha). specialize (E1 Hb).
    rewrite Z.add_1_r, Z.even_succ, <- Z.negb_even, E2 in E1. discriminate.
Qed.

Lemma np_round1_rounded_int64 (q : Qc) :
  rounded_int64 q (astype_int64 (np_round1 q)).
Proof.
  exists (np_round1 q). split.
  - apply np_round1_nearest_even.
  - apply astype_int64_int64_of.
Qed.

(** [np.round(a).astype(int)] is an integer array of the rounded points
    of [a]. *)
Lemma np_round_astype_int_stored (c : ndarray) :
  stored true (as_float c) (np_round_astype_int c).
Proof.
  unfold stored, np_round_astype_int. eexists. split; [reflexivity|].
  induction (as_float c) as [|[[x y] z] pts IH]; constructor; [|exact IH].
  repeat split; apply np_round1_rounded_int64.
Qed.

(** *** Affines written out *)



(** The fallback matrix and its inverse, one point at a time. *)
Lemma fallback_forward_point (x y z : Qc) :
  apply_affine1 fallback_vox2ras_tkr (x, y, z) = (fl 128 - x, z - fl 128, fl 128 - y).
Proof.
  unfold apply_affine1, fallback_vox2ras_tkr.
  replace (fl 1) with 1 by reflexivity.
  repeat (apply pair_equal_spec; split); ring.
Qed.

Lemma fallback_revert_point (n : mat4) (x y z : Qc) :
  np_linalg_inv fallback_vox2ras_tkr = Some n ->
  apply_affine1 n (x, y, z) = (fl 128 - x, fl 128 - z, y + fl 128).
Proof.
  intros Hn.
  rewrite <- (apply_affine1_inv_l fallback_vox2ras_tkr n
                (fl 128 - x, fl 128 - z, y + fl 128) eq_refl Hn).
  f_equal. rewrite fallback_forward_point.
  repeat (apply pair_equal_spec; split); ring.
Qed.

(** ** The monad *)

Lemma bind_Ok {A B} (m : M A) (k : A -> M B) st a st' :
  m st = (Ok a, st') -> bind m k st = k a st'.
Proof. unfold bind. by intros ->. Qed.

Lemma bind_Err {A B} (m : M A) (k : A -> M B) st e st' :
  m st = (Err e, st') -> bind m k st = (Err e, st').
Proof. unfold bind. by intros ->. Qed.

Lemma deref_Some l s st : heap st !! l = Some s -> deref l st = (Ok s, st).
Proof. unfold deref. by intros ->. Qed.

(** The three statements that recreate the sensors: a new object at the
    end of the heap; the old objects stay as they are. *)
Lemma recreate_run (s : Sensors) (c : ndarray) (u : string) (st : state) :
  (sensors <- new_Sensors s ;;
   set_coords sensors c ;;;
   set_coord_unit sensors u ;;;
   ret sensors) st
  = (Ok (length (heap st)),
     {| heap := heap st ++ [converted s c u]; log := log st |}).
Proof.
  unfold bind, new_Sensors, set_coords, set_coord_unit, update, ret. simpl.
  rewrite list_lookup_middle by done.
  simpl. rewrite insert_app_r_alt, Nat.sub_diag by done. simpl.
  rewrite list_lookup_middle by done.
  rewrite insert_app_r_alt, Nat.sub_diag by done. reflexivity.
Qed.

Lemma objects_kept_refl st : objects_kept st st.
Proof. by intros k x. Qed.

Lemma objects_kept_app st lg x :
  objects_kept st {| heap := heap st ++ x; log := lg |}.
Proof. intros k y Hk. simpl. by apply lookup_app_l_Some. Qed.

(** ** The consistency check of [_handle_mni_trans] *)

(** Had [_read_mri_info] returned arrays: [not np.isclose(a, b)] on two
    [4 x 4] arrays asks for the truth value of an array of sixteen
    booleans, which raises as well. *)
Lemma array_truth_isclose (a b : mat4) (st : state) :
  array_truth (flat (np_isclose a b)) st = (Err (ValueError ambiguous_truth_msg), st).
Proof.
  destruct a as [[[[[[? ?] ?] ?] [[[? ?] ?] ?]] [[[? ?] ?] ?]] [[[? ?] ?] ?]].
  destruct b as [[[[[[? ?] ?] ?] [[[? ?] ?] ?]] [[[? ?] ?] ?]] [[[? ?] ?] ?]].
  reflexivity.
Qed.

(** Sixteen times [True] is still an array of sixteen elements. *)
Example isclose_equal_arrays :
  flat (np_isclose fallback_vox2ras_tkr fallback_vox2ras_tkr) = replicate 16 true /\
  array_truth (replicate 16 true) {| heap := []; log := [] |}
    = (Err (ValueError ambiguous_truth_msg), {| heap := []; log := [] |}) /\
  array_truth [true] {| heap := []; log := [] |}
    = (Ok true, {| heap := []; log := [] |}).
Proof. repeat split; vm_compute; reflexivity. Qed.

Lemma nb_load_Some w p img st :
  nb_images w p = Some img ->
  nb_load w (Some p) st = (Ok img, {| heap := heap st; log := log st ++ [EvLoad p] |}).
Proof. unfold nb_load. intros ->. reflexivity. Qed.

(** The call of [np.isclose] in [_handle_mni_trans] is reached with a
    [Transform] for its second operand, and raises. *)
Lemma handle_mni_trans_raises w c p d subject img revert verbose st :
  entities_subject w p = Some subject ->
  canonical_volume_exists w d subject ->
  nb_images w p = Some img ->
  exists st',
    _handle_mni_trans w c p (Some d) revert verbose st
      = (Err (TypeError (isclose_type_error_msg w)), st') /\
    heap st' = heap st.
Proof.
  intros Hs Hvol Himg. unfold _handle_mni_trans. rewrite Hs.
  unfold canonical_volume_exists in Hvol.
  unfold op_join.
  unfold bind at 1. unfold ret at 1.
  unfold bind at 1.
  destruct (op_isfile w (volume_path d subject "orig.mgz")) eqn:Eo; cbn [negb].
  - unfold ret at 1. rewrite Eo. cbn [negb]. unfold bind, emit. cbn [heap log].
    rewrite (nb_load_Some _ _ _ _ Himg). cbn [np_isclose_any raise]. eauto.
  - destruct Hvol as [Hvol|Hvol]; [congruence|].
    unfold ret at 1. rewrite Hvol. cbn [negb].
    unfold bind, emit. cbn [heap log].
    rewrite (nb_load_Some _ _ _ _ Himg). cbn [np_isclose_any raise]. eauto.
Qed.

(** Membership in a literal list. *)
Ltac elem_of_literal :=
  repeat first [apply list_elem_of_here | apply list_elem_of_further].

(** The statements of [convert_coord_space] up to and including
    [nb.load(img_fpath)], for a conversion that is not short-circuited. *)
Ltac space_prelude Hl Hto Hunit Hne Hpath Himg :=
  unfold convert_coord_space;
  rewrite (bool_decide_eq_true_2 _ Hto); cbn [negb];
  unfold bind at 1; rewrite (deref_Some _ _ _ Hl);
  rewrite (bool_decide_eq_true_2 _ Hunit); cbn [negb];
  rewrite (proj2 (String.eqb_neq _ _) Hne);
  rewrite Hpath;
  unfold bind at 1; rewrite (nb_load_Some _ _ _ _ Himg).

Lemma convert_coord_space_from_mni w l s to p d subject img verbose st :
  heap st !! l = Some s ->
  coord_unit s = "mni" ->
  to ∈ MAPPING_COORD_FRAMES -> to <> "mni" ->
  intended_for s = Some p ->
  nb_images w p = Some img ->
  entities_subject w p = Some subject ->
  canonical_volume_exists w d subject ->
  exists st',
    convert_coord_space w l to (Some d) verbose st
      = (Err (TypeError (isclose_type_error_msg w)), st') /\
    heap st' = heap st.
Proof.
  intros Hl Hu Hto Hne Hpath Himg Hs Hvol.
  assert (Hunit : coord_unit s ∈ MAPPING_COORD_FRAMES).
  { rewrite Hu. unfold MAPPING_COORD_FRAMES. elem_of_literal. }
  assert (Hne' : to <> coord_unit s) by congruence.
  space_prelude Hl Hto Hunit Hne' Hpath Himg.
  rewrite Hu. simpl String.eqb. cbv iota.
  unfold bind at 1.
  edestruct (handle_mni_trans_raises w (get_coords s) p d subject img true verbose)
    as (st' & -> & Hh); eauto.
Qed.

Lemma convert_coord_space_mri_to_mni w l s p d subject img verbose st :
  heap st !! l = Some s ->
  coord_unit s = "mri" ->
  intended_for s = Some p ->
  nb_images w p = Some img ->
  entities_subject w p = Some subject ->
  canonical_volume_exists w d subject ->
  exists st',
    convert_coord_space w l "mni" (Some d) verbose st
      = (Err (TypeError (isclose_type_error_msg w)), st') /\
    heap st' = heap st.
Proof.
  intros Hl Hu Hpath Himg Hs Hvol.
  assert (Hto : "mni" ∈ MAPPING_COORD_FRAMES).
  { unfold MAPPING_COORD_FRAMES. elem_of_literal. }
  assert (Hunit : coord_unit s ∈ MAPPING_COORD_FRAMES).
  { rewrite Hu. unfold MAPPING_COORD_FRAMES. elem_of_literal. }
  assert (Hne' : "mni" <> coord_unit s) by (rewrite Hu; discriminate).
  space_prelude Hl Hto Hunit Hne' Hpath Himg.
  rewrite Hu. simpl String.eqb. cbv iota.
  unfold bind at 1. unfold ret at 1.
  unfold bind at 1.
  edestruct (handle_mni_trans_raises w (get_coords s) p d subject img false verbose)
    as (st' & -> & Hh); eauto.
Qed.

(** ** Claims on errors *)

(** C1 (code defect). The consistency check of [_handle_mni_trans] is
    [if not np.isclose(intended_affine, mri_ras_t)], where [mri_ras_t] is
    the [Transform] that [_read_mri_info] returned, a dict and not its
    matrix. Whenever the subject resolves, its canonical volume exists and
    the reference image loads, [np.isclose] raises a [TypeError], whether
    the matrix of the transform agrees with the affine of the image or
    not: no [RuntimeError] for a mismatch, no conversion for a match. *)
Theorem mni_check_raises_type_error (w : World) (c : ndarray)
    (p d subject : string) (img : Image) (revert verbose : bool) (st : state) :
  entities_subject w p = Some subject ->
  canonical_volume_exists w d subject ->
  nb_images w p = Some img ->
  fst (_handle_mni_trans w c p (Some d) revert verbose st)
    = Err (TypeError (isclose_type_error_msg w)).
Proof.
  intros Hs Hvol Himg.
  destruct (handle_mni_trans_raises w c p d subject img revert verbose st)
    as (st' & -> & _); auto.
Qed.

(** The reference image and the canonical volume of [example_world] have
    the same affine, and the forward MNI transform still raises. *)
Lemma mni_check_raises_type_error_witness :
  trans (read_mri_info example_world "fs/01/mri/T1.mgz") = affine quarter_mm_image /\
  fst (_handle_mni_trans example_world (NdInt [(1, 0, 0)%Z]) t1w_path (Some "fs")
         false true (example_state "mri" (Some t1w_path)))
    = Err (TypeError (isclose_type_error_msg example_world)).
Proof.
  split; [reflexivity|].
  apply (mni_check_raises_type_error example_world _ t1w_path "fs" "01"
           quarter_mm_image).
  - reflexivity.
  - right. reflexivity.
  - reflexivity.
Defined.

(** C8 (code defect, the one of C1). For sensors tagged [mni] with matching
    registration data, neither the single call to [tkras] nor the two calls
    through [mri] produce coordinates: each raises the [TypeError] of the
    consistency check in its reverse phase. *)
Theorem mni_to_tkras_raises (w : World) (l : loc) (s : Sensors)
    (p d subject : string) (img : Image) (verbose : bool) (st : state) :
  heap st !! l = Some s ->
  coord_unit s = "mni" ->
  intended_for s = Some p ->
  nb_images w p = Some img ->
  entities_subject w p = Some subject ->
  canonical_volume_exists w d subject ->
  fst (convert_coord_space w l "tkras" (Some d) verbose st)
    = Err (TypeError (isclose_type_error_msg w)) /\
  fst (mni_mri_tkras w l (Some d) verbose st)
    = Err (TypeError (isclose_type_error_msg w)).
Proof.
  intros Hl Hu Hpath Himg Hs Hvol.
  assert (Ht : "tkras" ∈ MAPPING_COORD_FRAMES)
    by (unfold MAPPING_COORD_FRAMES; elem_of_literal).
  assert (Hm : "mri" ∈ MAPPING_COORD_FRAMES)
    by (unfold MAPPING_COORD_FRAMES; elem_of_literal).
  split.
  - destruct (convert_coord_space_from_mni w l s "tkras" p d subject img verbose st
                Hl Hu Ht ltac:(discriminate) Hpath Himg Hs Hvol) as (st' & -> & _).
    reflexivity.
  - unfold mni_mri_tkras.
    destruct (convert_coord_space_from_mni w l s "mri" p d subject img verbose st
                Hl Hu Hm ltac:(discriminate) Hpath Himg Hs Hvol) as (st' & Hrun & _).
    by rewrite (bind_Err _ _ _ _ _ Hrun).
Qed.

Lemma mni_to_tkras_raises_witness :
  fst (convert_coord_space example_world 0%nat "tkras" (Some "fs") true
         (example_state "mni" (Some t1w_path)))
    = Err (TypeError (isclose_type_error_msg example_world)) /\
  fst (mni_mri_tkras example_world 0%nat (Some "fs") true
         (example_state "mni" (Some t1w_path)))
    = Err (TypeError (isclose_type_error_msg example_world)).
Proof.
  apply (mni_to_tkras_raises example_world 0%nat
           (example_sensors "mni" (Some t1w_path)) t1w_path "fs" "01"
           quarter_mm_image).
  - reflexivity.
  - reflexivity.
  - reflexivity.
  - reflexivity.
  - reflexivity.
  - right. reflexivity.
Defined.

(** C2 (code defect, the one of C1). The round trip of sensors tagged [mri]
    through frame [mni] yields no coordinates: its first conversion raises
    the [TypeError] of the consistency check. *)
Theorem round_trip_through_mni_raises (w : World) (l : loc) (s : Sensors)
    (p d subject : string) (img : Image) (verbose : bool) (st : state) :
  heap st !! l = Some s ->
  coord_unit s = "mri" ->
  intended_for s = Some p ->
  nb_images w p = Some img ->
  entities_subject w p = Some subject ->
  canonical_volume_exists w d subject ->
  fst (space_round_trip w l "mni" (Some d) verbose st)
    = Err (TypeError (isclose_type_error_msg w)).
Proof.
  intros Hl Hu Hpath Himg Hs Hvol.
  unfold space_round_trip.
  rewrite (bind_Ok _ _ _ _ _ (deref_Some _ _ _ Hl)).
  destruct (convert_coord_space_mri_to_mni w l s p d subject img verbose st
              Hl Hu Hpath Himg Hs Hvol) as (st' & Hrun & _).
  by rewrite (bind_Err _ _ _ _ _ Hrun).
Qed.

Lemma round_trip_through_mni_raises_witness :
  fst (space_round_trip example_world 0%nat "mni" (Some "fs") true
         (example_state "mri" (Some t1w_path)))
    = Err (TypeError (isclose_type_error_msg example_world)).
Proof.
  apply (round_trip_through_mni_raises example_world 0%nat
           (example_sensors "mri" (Some t1w_path)) t1w_path "fs" "01"
           quarter_mm_image).
  - reflexivity.
  - reflexivity.
  - reflexivity.
  - reflexivity.
  - reflexivity.
  - right. reflexivity.
Defined.

(** C5. A target outside the recognized units, respectively frames, makes
    the call raise the [ValueError] of the first statement of the function:
    the state that comes back is the state that went in, so no image was
    loaded, no event recorded and no object of the heap touched. *)
Theorem unknown_target_rejected (w : World) (l : loc) (to_unit to_frame : string)
    (subjects_dir : option string) (round verbose : bool) (st : state) :
  to_unit ∉ ["mri"; "mm"] ->
  to_frame ∉ MAPPING_COORD_FRAMES ->
  convert_coord_units w l to_unit round verbose st
    = (Err (ValueError (units_not_accepted_msg to_unit)), st) /\
  convert_coord_space w l to_frame subjects_dir verbose st
    = (Err (ValueError (frames_not_accepted_msg to_frame)), st).
Proof.
  intros Hu Hf. split.
  - unfold convert_coord_units. by rewrite (bool_decide_eq_false_2 _ Hu).
  - unfold convert_coord_space. by rewrite (bool_decide_eq_false_2 _ Hf).
Qed.

Lemma unknown_target_rejected_witness :
  convert_coord_units example_world 0%nat "m" true true
      (example_state "mri" (Some t1w_path))
    = (Err (ValueError (units_not_accepted_msg "m")),
       example_state "mri" (Some t1w_path)) /\
  convert_coord_space example_world 0%nat "foo" None true
      (example_state "mri" (Some t1w_path))
    = (Err (ValueError (frames_not_accepted_msg "foo")),
       example_state "mri" (Some t1w_path)).
Proof.
  apply (unknown_target_rejected example_world 0%nat "m" "foo").
  - apply (bool_decide_eq_false_1 _ (Decision0 := _)). reflexivity.
  - apply (bool_decide_eq_false_1 _ (Decision0 := _)). reflexivity.
Defined.

(** C4. When the requested target equals the current tag, the call
    returns the reference it was given and the state it was given: the
    input object itself with its coordinates and tag, no image loaded, no
    affine applied, no event recorded, no error. This holds for the unit
    converter when the tag is one of its units, and for the frame converter
    when the tag is one of its frames (other targets are refused before the
    comparison, see C5). *)
Theorem short_circuit_returns_input (w : World) (l : loc) (s : Sensors)
    (subjects_dir : option string) (round verbose : bool) (st : state) :
  heap st !! l = Some s ->
  (coord_unit s ∈ ["mri"; "mm"] ->
   convert_coord_units w l (coord_unit s) round verbose st = (Ok l, st)) /\
  (coord_unit s ∈ MAPPING_COORD_FRAMES ->
   convert_coord_space w l (coord_unit s) subjects_dir verbose st = (Ok l, st)).
Proof.
  intros Hl. split.
  - intros Hu. unfold convert_coord_units.
    rewrite (bool_decide_eq_true_2 _ Hu). cbn [negb].
    unfold bind. rewrite (deref_Some _ _ _ Hl).
    by rewrite String.eqb_refl.
  - intros Hf. unfold convert_coord_space.
    rewrite (bool_decide_eq_true_2 _ Hf). cbn [negb].
    unfold bind. rewrite (deref_Some _ _ _ Hl).
    rewrite (bool_decide_eq_true_2 _ Hf). cbn [negb].
    by rewrite String.eqb_refl.
Qed.

(** Sensors in millimetres asked for millimetres, and sensors in [tkras]
    asked for [tkras], without a reference image: each call gives back its
    input and the coordinates [(1, 0, 0)] it holds. *)
Lemma short_circuit_returns_input_witness :
  (convert_coord_units example_world 0%nat "mm" true true (example_state "mm" None)
     = (Ok 0%nat, example_state "mm" None) /\
   coords_at (example_state "mm" None) 0%nat = Some (NdInt [(1, 0, 0)%Z])) /\
  (convert_coord_space example_world 0%nat "tkras" None true (example_state "tkras" None)
     = (Ok 0%nat, example_state "tkras" None) /\
   coords_at (example_state "tkras" None) 0%nat = Some (NdInt [(1, 0, 0)%Z])).
Proof.
  split; (split; [|reflexivity]).
  - apply (proj1 (short_circuit_returns_input example_world 0%nat
                    (example_sensors "mm" None) None true true
                    (example_state "mm" None) eq_refl)).
    simpl. elem_of_literal.
  - apply (proj2 (short_circuit_returns_input example_world 0%nat
                    (example_sensors "tkras" None) None true true
                    (example_state "tkras" None) eq_refl)).
    simpl. unfold MAPPING_COORD_FRAMES. elem_of_literal.
Defined.

(** C6 (code defect). [convert_coord_units] passes [sensors.intended_for] to
    [nb.load] without looking at it: with the path unset the call ends in
    the [TypeError] of the loader, not in the [RuntimeError] that
    [convert_coord_space] raises for the same sensors. *)
Theorem units_without_image_type_error (w : World) (l : loc) (s : Sensors)
    (to : string) (round verbose : bool) (st : state) :
  heap st !! l = Some s ->
  intended_for s = None ->
  to ∈ ["mri"; "mm"] ->
  to <> coord_unit s ->
  convert_coord_units w l to round verbose st = (Err (TypeError none_path_msg), st).
Proof.
  intros Hl Hnone Hto Hne.
  unfold convert_coord_units.
  rewrite (bool_decide_eq_true_2 _ Hto). cbn [negb].
  unfold bind at 1. rewrite (deref_Some _ _ _ Hl).
  rewrite (proj2 (String.eqb_neq _ _) Hne).
  rewrite Hnone. reflexivity.
Qed.

Lemma units_without_image_type_error_witness :
  convert_coord_units example_world 0%nat "mri" true true (example_state "mm" None)
    = (Err (TypeError none_path_msg), example_state "mm" None).
Proof.
  apply (units_without_image_type_error example_world 0%nat (example_sensors "mm" None)).
  - reflexivity.
  - reflexivity.
  - elem_of_literal.
  - discriminate.
Defined.

(** X2. The sibling path: [convert_coord_space] checks the path before loading. *)
Lemma space_without_image_runtime_error w l s to subjects_dir verbose st :
  heap st !! l = Some s ->
  intended_for s = None ->
  to ∈ MAPPING_COORD_FRAMES ->
  coord_unit s ∈ MAPPING_COORD_FRAMES ->
  to <> coord_unit s ->
  convert_coord_space w l to subjects_dir verbose st
    = (Err (RuntimeError (need_intended_for_msg w s)), st).
Proof.
  intros Hl Hnone Hto Hunit Hne.
  unfold convert_coord_space.
  rewrite (bool_decide_eq_true_2 _ Hto). cbn [negb].
  unfold bind at 1. rewrite (deref_Some _ _ _ Hl).
  rewrite (bool_decide_eq_true_2 _ Hunit). cbn [negb].
  rewrite (proj2 (String.eqb_neq _ _) Hne).
  rewrite Hnone. reflexivity.
Qed.

(** ** The tkras resolver *)

Lemma handle_tkras_trans_forward c img verbose st :
  exists lg,
    _handle_tkras_trans c img false verbose st
      = (Ok (apply_affine (tkr_matrix img) c), {| heap := heap st; log := lg |}).
Proof.
  unfold _handle_tkras_trans, tkr_matrix, bind, emit, ret. destruct st as [h lg0].
  destruct (vox2ras_tkr img) as [t|], verbose; simpl; eexists; reflexivity.
Qed.

Lemma handle_tkras_trans_revert c img n verbose st :
  np_linalg_inv (tkr_matrix img) = Some n ->
  exists lg,
    _handle_tkras_trans c img true verbose st
      = (Ok (apply_affine n c), {| heap := heap st; log := lg |}).
Proof.
  unfold _handle_tkras_trans, tkr_matrix. intros Hn. destruct st as [h lg0].
  destruct (vox2ras_tkr img) as [t|];
    cbv beta iota delta [from_option id] in Hn;
    unfold bind, emit, ret, linalg_inv; destruct verbose;
    cbv beta iota; rewrite Hn; eexists; reflexivity.
Qed.

(** Whatever the outcome, the heap is not touched, and a result is the
    input transformed point by point. *)
Lemma handle_tkras_trans_inv c img revert verbose st r st' :
  _handle_tkras_trans c img revert verbose st = (r, st') ->
  heap st' = heap st /\
  forall c', r = Ok c' -> exists m, c' = apply_affine m c.
Proof.
  unfold _handle_tkras_trans, bind, emit, ret, linalg_inv, raise.
  destruct (vox2ras_tkr img) as [t|], verbose, revert; simpl;
    try destruct (np_linalg_inv _); simpl;
    intros [= <- <-]; (split; [reflexivity|]); intros c' [= <-]; eauto.
Qed.

Lemma fallback_vox2ras_tkr_invertible :
  exists n, np_linalg_inv fallback_vox2ras_tkr = Some n.
Proof.
  apply np_linalg_inv_Some. intros H. apply Qc_eqb_eq in H.
  vm_compute in H. discriminate H.
Qed.

Lemma apply_affine_fallback_forward (c : ndarray) :
  apply_affine fallback_vox2ras_tkr c
    = NdFloat (map (fun '(x, y, z) => (fl 128 - x, z - fl 128, fl 128 - y))
                   (as_float c)).
Proof.
  unfold apply_affine. f_equal. apply map_ext. intros [[x y] z].
  apply fallback_forward_point.
Qed.

Lemma apply_affine_fallback_revert (n : mat4) (c : ndarray) :
  np_linalg_inv fallback_vox2ras_tkr = Some n ->
  apply_affine n c
    = NdFloat (map (fun '(x, y, z) => (fl 128 - x, fl 128 - z, y + fl 128))
                   (as_float c)).
Proof.
  intros Hn. unfold apply_affine. f_equal. apply map_ext. intros [[x y] z].
  by apply fallback_revert_point.
Qed.

(** C7. For an image whose header has no [get_vox2ras_tkr], the resolver
    records the warning and completes with the fallback matrix
    [[-1,0,0,128],[0,0,1,-128],[0,-1,0,128],[0,0,0,1]]: forward, a point
    (x, y, z) becomes (128 - x, z - 128, 128 - y); reverting, it becomes
    (128 - x, 128 - z, y + 128); in particular voxel (128, 128, 128) is
    tkras (0, 0, 0). *)
Theorem tkras_fallback_completes (c : ndarray) (img : Image) (verbose : bool)
    (st : state) :
  vox2ras_tkr img = None ->
  let st' :=
    {| heap := heap st;
       log := (log st ++ [EvWarn (tkr_warning_msg img)]) ++
              (if verbose then [EvPrintTkr fallback_vox2ras_tkr] else []) |} in
  fallback_vox2ras_tkr
    = ((- fl 1, 0, 0, fl 128), (0, 0, fl 1, - fl 128),
       (0, - fl 1, 0, fl 128), (0, 0, 0, fl 1)) /\
  _handle_tkras_trans c img false verbose st
    = (Ok (NdFloat (map (fun '(x, y, z) => (fl 128 - x, z - fl 128, fl 128 - y))
                        (as_float c))), st') /\
  _handle_tkras_trans c img true verbose st
    = (Ok (NdFloat (map (fun '(x, y, z) => (fl 128 - x, fl 128 - z, y + fl 128))
                        (as_float c))), st') /\
  _handle_tkras_trans (NdInt [(128, 128, 128)%Z]) img false verbose st
    = (Ok (NdFloat [(0, 0, 0)]), st').
Proof.
  intros Hnone st'. subst st'.
  destruct fallback_vox2ras_tkr_invertible as [n Hn].
  assert (Hfwd : forall c0,
    _handle_tkras_trans c0 img false verbose st
      = (Ok (NdFloat (map (fun '(x, y, z) => (fl 128 - x, z - fl 128, fl 128 - y))
                          (as_float c0))),
         {| heap := heap st;
            log := (log st ++ [EvWarn (tkr_warning_msg img)]) ++
                   (if verbose then [EvPrintTkr fallback_vox2ras_tkr] else []) |})).
  { intros c0. unfold _handle_tkras_trans. rewrite Hnone.
    unfold bind, emit, ret. cbv beta iota zeta.
    rewrite apply_affine_fallback_forward.
    destruct verbose; cbn [heap log]; [reflexivity|]. by rewrite app_nil_r. }
  split; [reflexivity|]. split; [apply Hfwd|]. split.
  - unfold _handle_tkras_trans. rewrite Hnone.
    unfold bind, emit, ret, linalg_inv. cbv beta iota zeta. rewrite Hn.
    destruct verbose; unfold ret; cbv beta iota; cbn [heap log];
      rewrite (apply_affine_fallback_revert n c Hn), ?app_nil_r; reflexivity.
  - rewrite Hfwd. cbn [as_float map vec3_map].
    replace (fl 128 - fl 128) with 0 by ring. reflexivity.
Qed.

(** Voxels (100, 120, 140) and (128, 128, 128) of an image without the
    lookup: (28, 12, 8) forward, (28, -12, 248) reverting, and the
    origin. *)
Lemma tkras_fallback_completes_witness :
  let st' :=
    {| heap := [example_sensors "mri" (Some t1w_path)];
       log := [EvWarn "Unable to programmatically get vox2ras TKR, so setting manually. Error: 'Nifti1Header' object has no attribute 'get_vox2ras_tkr'";
               EvPrintTkr fallback_vox2ras_tkr] |} in
  _handle_tkras_trans (NdInt [(100, 120, 140)%Z]) quarter_mm_image false true
      (example_state "mri" (Some t1w_path))
    = (Ok (NdFloat [(fl 128 - fl 100, fl 140 - fl 128, fl 128 - fl 120)]), st') /\
  (fl 128 - fl 100, fl 140 - fl 128, fl 128 - fl 120) = (fl 28, fl 12, fl 8) /\
  _handle_tkras_trans (NdInt [(100, 120, 140)%Z]) quarter_mm_image true true
      (example_state "mri" (Some t1w_path))
    = (Ok (NdFloat [(fl 128 - fl 100, fl 128 - fl 140, fl 120 + fl 128)]), st') /\
  (fl 128 - fl 100, fl 128 - fl 140, fl 120 + fl 128) = (fl 28, fl (-12), fl 248) /\
  _handle_tkras_trans (NdInt [(128, 128, 128)%Z]) quarter_mm_image false true
      (example_state "mri" (Some t1w_path))
    = (Ok (NdFloat [(0, 0, 0)]), st').
Proof.
  destruct (tkras_fallback_completes (NdInt [(100, 120, 140)%Z]) quarter_mm_image true
              (example_state "mri" (Some t1w_path)) eq_refl)
    as (_ & Hfwd & Hrev & Horigin).
  split; [exact Hfwd|]. split.
  { repeat (apply pair_equal_spec; split); apply Qc_is_canon; reflexivity. }
  split; [exact Hrev|]. split.
  { repeat (apply pair_equal_spec; split); apply Qc_is_canon; reflexivity. }
  exact Horigin.
Defined.

(** ** The unit converter *)

Lemma lookup_snoc {A} (h : list A) (x : A) : (h ++ [x]) !! length h = Some x.
Proof. by rewrite list_lookup_middle. Qed.

Lemma insert_snoc {A} (h : list A) (x y : A) : <[length h := y]> (h ++ [x]) = h ++ [y].
Proof. by rewrite insert_app_r_alt, Nat.sub_diag. Qed.

(** Running a computation whose branches are all decided by equations in
    the context. *)
Ltac run_known :=
  repeat (progress
    (unfold bind, deref, nb_load, linalg_inv, lift, emit, ret, raise,
       new_Sensors, set_coords, set_coord_unit, update, get_coords;
     cbv beta iota zeta; cbn [negb heap log];
     rewrite ?lookup_snoc, ?insert_snoc, ?String.eqb_refl;
     try match goal with
         | H : ?x = _ |- context [?x] => rewrite H
         end)).

Lemma convert_coord_units_outcome w l s to verbose st :
  heap st !! l = Some s ->
  to <> coord_unit s ->
  (exists e st', forall round,
      convert_coord_units w l to round verbose st = (Err e, st')) \/
  (exists c lg,
      units_coords w s to c /\
      forall round,
        convert_coord_units w l to round verbose st
          = (Ok (length (heap st)),
             {| heap := heap st ++
                  [converted s (if round then np_round_astype_int c else c) to];
                log := lg |})).
Proof.
  intros Hl Hne. apply String.eqb_neq in Hne.
  destruct (bool_decide (to ∈ ["mri"; "mm"])) eqn:Hto; [destruct verbose|];
  [| |left; do 2 eexists; intros; unfold convert_coord_units; run_known; reflexivity].
  all: destruct (intended_for s) as [p|] eqn:Hp;
    [|left; do 2 eexists; intros; unfold convert_coord_units; run_known; reflexivity].
  all: destruct (nb_images w p) as [img|] eqn:Himg;
    [|left; do 2 eexists; intros; unfold convert_coord_units; run_known; reflexivity].
  all: destruct (np_linalg_inv (affine img)) as [n|] eqn:Hn;
    [|left; do 2 eexists; intros; unfold convert_coord_units; run_known; reflexivity].
  all: destruct (String.eqb to "mri") eqn:Hmri.
  all: try (destruct (_scale_coordinates w (coords s) (coord_unit s) "mm") as [c1|e] eqn:Hsc;
      [|left; do 2 eexists; intros; unfold convert_coord_units; run_known; reflexivity]).
  all: apply bool_decide_eq_true_1 in Hto as Hto'.
  1, 3: apply String.eqb_eq in Hmri as Hmri';
    right; exists (apply_affine n c1); eexists; split;
    [exists p, img, n; repeat split; try done; left; eauto
    |intros round; unfold convert_coord_units; run_known; reflexivity].
  all: assert (Hmm : to = "mm")
    by (apply elem_of_cons in Hto' as [->|Hto']; [discriminate Hmri|];
        by apply list_elem_of_singleton in Hto').
  all: subst to; right; exists (apply_affine (affine img) (coords s)); eexists; split;
    [exists p, img, n; repeat split; try done; right; eauto
    |intros round; unfold convert_coord_units; run_known; reflexivity].
Qed.


Lemma coords_at_snoc h lg s c u :
  coords_at {| heap := h ++ [converted s c u]; log := lg |} (length h) = Some c.
Proof. unfold coords_at. cbn [heap]. by rewrite lookup_snoc. Qed.

(** C10. When rounding is requested and the target differs from the
    current unit, the call succeeds where the call without rounding does,
    and its result holds an integer array with as many points, each
    coordinate being the unrounded one rounded to the nearest integer (a
    tie going to the even neighbour) and cast to int64: for target [mm] as
    for target [mri]. *)
Theorem rounding_applies_to_any_target (w : World) (l : loc) (s : Sensors)
    (to : string) (verbose : bool) (st : state) (l0 : loc) (st0 : state) :
  heap st !! l = Some s ->
  to <> coord_unit s ->
  convert_coord_units w l to false verbose st = (Ok l0, st0) ->
  exists (c0 : ndarray) (zs : list (vec3 Z)) (st1 : state),
    coords_at st0 l0 = Some c0 /\
    convert_coord_units w l to true verbose st = (Ok l0, st1) /\
    coords_at st1 l0 = Some (NdInt zs) /\
    Forall2 rounded_point (as_float c0) zs.
Proof.
  intros Hl Hne Hrun.
  destruct (convert_coord_units_outcome w l s to verbose st Hl Hne)
    as [(e & st' & H) | (c & lg & _ & H)].
  - rewrite H in Hrun. discriminate Hrun.
  - rewrite H in Hrun. injection Hrun as <- <-.
    destruct (np_round_astype_int_stored c) as (zs & Hzs & Hall).
    exists c, zs. eexists. split; [apply coords_at_snoc|].
    split; [apply H|]. cbv iota. rewrite Hzs. split; [apply coords_at_snoc|exact Hall].
Qed.

(** Voxels (6, 10, -7) of quarter-millimetre size converted to [mm]:
    (1.5, 2.5, -1.75) without rounding, the integers (2, 2, -2) with it. *)
Lemma rounding_applies_to_any_target_witness :
  coords_at (snd (convert_coord_units example_world 0%nat "mm" false true
                    {| heap := [with_coords (NdInt [(6, 10, -7)%Z])
                                  (example_sensors "mri" (Some t1w_path))];
                       log := [] |})) 1%nat
    = Some (NdFloat [(Q2Qc (3 # 2), Q2Qc (5 # 2), Q2Qc (-7 # 4))]) /\
  coords_at (snd (convert_coord_units example_world 0%nat "mm" true true
                    {| heap := [with_coords (NdInt [(6, 10, -7)%Z])
                                  (example_sensors "mri" (Some t1w_path))];
                       log := [] |})) 1%nat
    = Some (NdInt [(2, 2, -2)%Z]) /\
  exists (c0 : ndarray) (zs : list (vec3 Z)) (st1 : state),
    coords_at (snd (convert_coord_units example_world 0%nat "mm" false true
                      {| heap := [with_coords (NdInt [(6, 10, -7)%Z])
                                    (example_sensors "mri" (Some t1w_path))];
                         log := [] |})) 1%nat = Some c0 /\
    convert_coord_units example_world 0%nat "mm" true true
        {| heap := [with_coords (NdInt [(6, 10, -7)%Z])
                      (example_sensors "mri" (Some t1w_path))];
           log := [] |} = (Ok 1%nat, st1) /\
    coords_at st1 1%nat = Some (NdInt zs) /\
    Forall2 rounded_point (as_float c0) zs.
Proof.
  split; [|split].
  - vm_compute. do 3 f_equal;
      repeat (apply pair_equal_spec; split); apply Qc_is_canon; reflexivity.
  - vm_compute. reflexivity.
  - apply (rounding_applies_to_any_target example_world 0%nat
             (with_coords (NdInt [(6, 10, -7)%Z]) (example_sensors "mri" (Some t1w_path)))
             "mm" true).
    + reflexivity.
    + discriminate.
    + vm_compute. reflexivity.
Defined.

(** ** Unit round trip *)



(** ** The frame converter *)

(** [_handle_mni_trans] never returns: every path through it ends in an
    exception, the last one being the [TypeError] of the comparison. *)
Lemma handle_mni_trans_never_Ok w c p sd revert verbose st r st' :
  _handle_mni_trans w c p sd revert verbose st = (r, st') ->
  heap st' = heap st /\ exists e, r = Err e.
Proof.
  unfold _handle_mni_trans, op_join.
  destruct (entities_subject w p) as [subject|]; [|intros [= <- <-]; eauto].
  destruct sd as [d|]; [|intros [= <- <-]; eauto].
  unfold bind at 1. unfold ret at 1. unfold bind at 1.
  destruct (op_isfile w (volume_path d subject "orig.mgz")) eqn:Eo;
    cbn [negb]; unfold ret at 1.
  - rewrite Eo. cbn [negb]. unfold bind at 1, emit. unfold bind at 1, nb_load.
    destruct (nb_images w p) as [img|]; [|intros [= <- <-]; eauto].
    unfold bind at 1, emit, ret. cbn [heap log].
    unfold bind at 1. cbn [np_isclose_any raise]. intros [= <- <-]. eauto.
  - destruct (op_isfile w (volume_path d subject "T1.mgz")) eqn:Et;
      cbn [negb]; [|intros [= <- <-]; eauto].
    unfold bind at 1, emit. unfold bind at 1, nb_load.
    destruct (nb_images w p) as [img|]; [|intros [= <- <-]; eauto].
    unfold bind at 1, emit, ret. cbn [heap log].
    unfold bind at 1. cbn [np_isclose_any raise]. intros [= <- <-]. eauto.
Qed.

Lemma bind_inv {A B} (m : M A) (k : A -> M B) st b st' :
  bind m k st = (Ok b, st') ->
  exists a st1, m st = (Ok a, st1) /\ k a st1 = (Ok b, st').
Proof.
  unfold bind. destruct (m st) as [[a|e] st1]; [eauto|discriminate].
Qed.

Lemma pointwise_of_ret c : pointwise_of c (ret c).
Proof.
  intros st r st' [= <- <-]. split; [done|]. intros c' [= <-].
  exists id. by rewrite map_id.
Qed.

Lemma pointwise_of_if (b : bool) c m1 m2 :
  pointwise_of c m1 -> pointwise_of c m2 -> pointwise_of c (if b then m1 else m2).
Proof. by destruct b. Qed.

Lemma pointwise_of_bind c m k :
  pointwise_of c m -> (forall a, pointwise_of a (k a)) -> pointwise_of c (bind m k).
Proof.
  intros Hm Hk st r st'. unfold bind.
  destruct (m st) as [[a|e] st1] eqn:E; apply Hm in E as [Hh Hg].
  - intros E2. apply Hk in E2 as [Hh2 Hg2]. split; [congruence|].
    intros c' Hc'. destruct (Hg2 _ Hc') as [g2 Hg2']. destruct (Hg _ eq_refl) as [g1 Hg1].
    exists (g2 ∘ g1). by rewrite Hg2', Hg1, map_map.
  - intros [= <- <-]. split; [done|]. discriminate.
Qed.

Lemma pointwise_of_mni w c p sd revert verbose :
  pointwise_of c (_handle_mni_trans w c p sd revert verbose).
Proof.
  intros st r st' E. apply handle_mni_trans_never_Ok in E as [Hh [e ->]].
  split; [done|]. discriminate.
Qed.

Lemma pointwise_of_tkras c img revert verbose :
  pointwise_of c (_handle_tkras_trans c img revert verbose).
Proof.
  intros st r st' E. apply handle_tkras_trans_inv in E as [Hh Hr].
  split; [done|]. intros c' Hc'. destruct (Hr _ Hc') as [m ->].
  exists (apply_affine1 m). apply as_float_apply_affine.
Qed.

Lemma pointwise_of_scale w c u v :
  scale_pointwise w -> pointwise_of c (lift (_scale_coordinates w c u v)).
Proof.
  intros Hsp st r st' [= <- <-]. split; [done|]. intros c' Hc'. by eapply Hsp.
Qed.

(** A successful conversion between two different frames leaves one new
    object at the end of the heap, whose points are images of the old. *)
Lemma convert_coord_space_Ok w l s to sd verbose st l' st' :
  heap st !! l = Some s ->
  to <> coord_unit s ->
  scale_pointwise w ->
  convert_coord_space w l to sd verbose st = (Ok l', st') ->
  exists c lg,
    l' = length (heap st) /\
    st' = {| heap := heap st ++ [converted s c to]; log := lg |} /\
    exists g, as_float c = map g (as_float (coords s)).
Proof.
  intros Hl Hne Hsp. apply String.eqb_neq in Hne. unfold convert_coord_space.
  destruct (bool_decide (to ∈ MAPPING_COORD_FRAMES)) eqn:Hto;
    [|run_known; discriminate].
  destruct (bool_decide (coord_unit s ∈ MAPPING_COORD_FRAMES)) eqn:Hunit;
    [|run_known; discriminate].
  destruct (intended_for s) as [p|] eqn:Hp; [|run_known; discriminate].
  destruct (nb_images w p) as [img|] eqn:Himg; [|run_known; discriminate].
  cbn [negb]. unfold bind at 1. rewrite (deref_Some _ _ _ Hl).
  rewrite Hunit. cbn [negb]. rewrite Hne, Hp.
  unfold bind at 1. rewrite (nb_load_Some _ _ _ _ Himg).
  intros Hrun.
  apply bind_inv in Hrun as (c1 & st2 & H1 & Hrun).
  apply bind_inv in Hrun as (c2 & st3 & H2 & Hrun).
  rewrite recreate_run in Hrun. injection Hrun as <- <-.
  assert (P1 : heap st2 = heap st /\
               exists g, as_float c1 = map g (as_float (coords s))).
  { revert H1.
    match goal with |- ?m _ = _ -> _ => assert (P : pointwise_of (get_coords s) m) end.
    { repeat apply pointwise_of_if;
        [apply pointwise_of_mni | apply pointwise_of_tkras | apply pointwise_of_ret]. }
    intros H1. apply P in H1 as [Hh Hg]. split; [exact Hh|]. by apply Hg. }
  assert (P2 : heap st3 = heap st2 /\ exists g, as_float c2 = map g (as_float c1)).
  { revert H2.
    match goal with |- ?m _ = _ -> _ => assert (P : pointwise_of c1 m) end.
    { repeat apply pointwise_of_if;
        [apply pointwise_of_mni | | apply pointwise_of_ret].
      apply pointwise_of_bind; [|intros a; apply pointwise_of_tkras].
      apply pointwise_of_if; [by apply pointwise_of_scale | apply pointwise_of_ret]. }
    intros H2. apply P in H2 as [Hh Hg]. split; [exact Hh|]. by apply Hg. }
  destruct P1 as [Hh1 [g1 Hg1]], P2 as [Hh2 [g2 Hg2]].
  exists c2, (log st3). rewrite Hh2, Hh1. repeat split.
  exists (g2 ∘ g1). by rewrite Hg2, Hg1, map_map.
Qed.

(** The same for the unit converter. *)
Lemma convert_coord_units_Ok w l s to round verbose st l' st' :
  heap st !! l = Some s ->
  to <> coord_unit s ->
  scale_pointwise w ->
  convert_coord_units w l to round verbose st = (Ok l', st') ->
  exists c lg,
    l' = length (heap st) /\
    st' = {| heap := heap st ++ [converted s c to]; log := lg |} /\
    exists g, as_float c = map g (as_float (coords s)).
Proof.
  intros Hl Hne Hsp Hrun.
  destruct (convert_coord_units_outcome w l s to verbose st Hl Hne)
    as [(e & st0 & H) | (c & lg & Hc & H)]; rewrite H in Hrun; [discriminate|].
  injection Hrun as <- <-. do 2 eexists. repeat split.
  assert (Hg : exists g, as_float c = map g (as_float (coords s))).
  { destruct Hc as (p & img & n & _ & _ & _ & [[_ (c1 & Hsc & ->)] | [_ ->]]).
    - apply Hsp in Hsc as [g Hg]. exists (apply_affine1 n ∘ g).
      by rewrite as_float_apply_affine, Hg, map_map.
    - exists (apply_affine1 (affine img)). apply as_float_apply_affine. }
  destruct Hg as [g Hg]. destruct round; [|eauto].
  exists (vec3_map fl ∘ vec3_map (fun q => astype_int64 (np_round1 q)) ∘ g).
  unfold np_round_astype_int. cbn [as_float]. by rewrite Hg, !map_map.
Qed.

(** ** Results are new objects *)

(** C9, as stated, fails: asked for the unit the sensors already have, the
    call succeeds and returns the reference it was given. *)
Lemma same_unit_returns_input_counterexample :
  ~ returns_new_object example_world (example_state "mm" (Some t1w_path))
      0%nat "mm" true true.
Proof.
  intros H.
  specialize (H 0%nat (example_state "mm" (Some t1w_path)) eq_refl).
  discriminate H.
Qed.

Lemma spec_scale_pointwise :
  forall c u v c', spec_scale_coordinates c u v = Ok c' ->
    exists g, as_float c' = map g (as_float c).
Proof.
  intros c u v c'. unfold spec_scale_coordinates.
  repeat (case_match; try discriminate); intros [= <-]; eexists; reflexivity.
Qed.


(** C9, amended. After a successful call of either converter the objects
    that were in the heap are still there, unchanged. If the target is the
    current tag, the result is the input reference and the state is the
    input state; otherwise the result is a new object with the attributes
    of the input other than coordinates and tag, the target as its tag, and
    the input's points in order, each transformed. *)
Theorem conversion_leaves_input_and_returns_copy (w : World) (l : loc) (s : Sensors)
    (to : string) (subjects_dir : option string) (round verbose : bool)
    (st : state) (l' : loc) (st' : state) :
  heap st !! l = Some s ->
  scale_pointwise w ->
  convert_coord_units w l to round verbose st = (Ok l', st') \/
  convert_coord_space w l to subjects_dir verbose st = (Ok l', st') ->
  objects_kept st st' /\
  (to = coord_unit s -> l' = l /\ st' = st) /\
  (to <> coord_unit s -> fresh_copy st s to l' st').
Proof.
  intros Hl Hsp Hrun.
  destruct (decide (to = coord_unit s)) as [Heq|Hne].
  - assert (Hsame : l' = l /\ st' = st).
    { subst to. destruct Hrun as [Hrun|Hrun]; revert Hrun.
      - unfold convert_coord_units.
        destruct (bool_decide (coord_unit s ∈ ["mri"; "mm"])) eqn:Hto;
          run_known; intros [= <- <-]; done.
      - unfold convert_coord_space.
        destruct (bool_decide (coord_unit s ∈ MAPPING_COORD_FRAMES)) eqn:Hto;
          run_known; intros [= <- <-]; done. }
    destruct Hsame as [-> ->].
    split; [apply objects_kept_refl|]. split; [done|]. intros Hne. contradiction.
  - assert (Hnew : exists c lg,
               l' = length (heap st) /\
               st' = {| heap := heap st ++ [converted s c to]; log := lg |} /\
               exists g, as_float c = map g (as_float (coords s))).
    { destruct Hrun as [Hrun|Hrun].
      - by eapply convert_coord_units_Ok.
      - by eapply convert_coord_space_Ok. }
    destruct Hnew as (c & lg & -> & -> & Hg).
    split; [apply objects_kept_app|]. split; [intros Heq; contradiction|].
    intros _. split.
    + apply lookup_ge_None_2. reflexivity.
    + exists (converted s c to). cbn [heap]. rewrite lookup_snoc.
      repeat split; done.
Qed.

Lemma conversion_leaves_input_and_returns_copy_witness :
  objects_kept (example_state "mri" (Some t1w_path))
    (snd (convert_coord_units example_world 0%nat "mm" true true
            (example_state "mri" (Some t1w_path)))) /\
  ("mm" = "mri" -> 1%nat = 0%nat /\
     snd (convert_coord_units example_world 0%nat "mm" true true
            (example_state "mri" (Some t1w_path)))
     = example_state "mri" (Some t1w_path)) /\
  ("mm" <> "mri" ->
   fresh_copy (example_state "mri" (Some t1w_path))
     (example_sensors "mri" (Some t1w_path)) "mm" 1%nat
     (snd (convert_coord_units example_world 0%nat "mm" true true
             (example_state "mri" (Some t1w_path))))).
Proof.
  apply (conversion_leaves_input_and_returns_copy example_world 0%nat
           (example_sensors "mri" (Some t1w_path)) "mm" None true true
           (example_state "mri" (Some t1w_path)) 1%nat).
  - reflexivity.
  - exact spec_scale_pointwise.
  - left. vm_compute. reflexivity.
Defined.


(** ** Between mri and tkras *)

(** The string tests of [convert_coord_space] on the literals involved. *)
Ltac frame_literals :=
  assert (bool_decide ("mri" ∈ MAPPING_COORD_FRAMES) = true) by reflexivity;
  assert (bool_decide ("tkras" ∈ MAPPING_COORD_FRAMES) = true) by reflexivity;
  assert (bool_decide ("mri" ∈ ["mri"; "mni"]) = true) by reflexivity;
  assert (("tkras" =? "mri")%string = false) by reflexivity;
  assert (("mri" =? "tkras")%string = false) by reflexivity;
  assert (("mri" =? "mni")%string = false) by reflexivity;
  assert (("tkras" =? "mni")%string = false) by reflexivity.

Lemma convert_coord_space_mri_to_tkras w l s p img sd verbose st :
  heap st !! l = Some s ->
  coord_unit s = "mri" ->
  intended_for s = Some p ->
  nb_images w p = Some img ->
  exists lg,
    convert_coord_space w l "tkras" sd verbose st
      = (Ok (length (heap st)),
         {| heap := heap st ++
              [converted s (apply_affine (tkr_matrix img) (coords s)) "tkras"];
            log := lg |}).
Proof.
  intros Hl Hu Hp Himg. frame_literals.
  destruct (handle_tkras_trans_forward (coords s) img verbose
              {| heap := heap st; log := log st ++ [EvLoad p] |}) as [lg Hf].
  cbn [heap] in Hf.
  exists lg. unfold convert_coord_space. run_known. reflexivity.
Qed.

Lemma convert_coord_space_tkras_to_mri w l s p img n sd verbose st :
  heap st !! l = Some s ->
  coord_unit s = "tkras" ->
  intended_for s = Some p ->
  nb_images w p = Some img ->
  np_linalg_inv (tkr_matrix img) = Some n ->
  exists lg,
    convert_coord_space w l "mri" sd verbose st
      = (Ok (length (heap st)),
         {| heap := heap st ++ [converted s (apply_affine n (coords s)) "mri"];
            log := lg |}).
Proof.
  intros Hl Hu Hp Himg Hn. frame_literals.
  destruct (handle_tkras_trans_revert (coords s) img n verbose
              {| heap := heap st; log := log st ++ [EvLoad p] |} Hn) as [lg Hf].
  cbn [heap] in Hf.
  exists lg. unfold convert_coord_space. run_known. reflexivity.
Qed.

(** * Further properties of the converters *)

(** ** Guards of the frame converter *)

(** X3. Sensors whose tag is not a frame are refused by [convert_coord_space]
    for every recognized target, before anything is loaded. *)
Theorem space_rejects_tag_outside_frames (w : World) (l : loc) (s : Sensors)
    (to : string) (subjects_dir : option string) (verbose : bool) (st : state) :
  heap st !! l = Some s ->
  to ∈ MAPPING_COORD_FRAMES ->
  coord_unit s ∉ MAPPING_COORD_FRAMES ->
  convert_coord_space w l to subjects_dir verbose st
    = (Err (ValueError tag_not_frame_msg), st).
Proof.
  intros Hl Hto Hu. unfold convert_coord_space.
  rewrite (bool_decide_eq_true_2 _ Hto). cbn [negb].
  unfold bind at 1. rewrite (deref_Some _ _ _ Hl).
  rewrite (bool_decide_eq_false_2 _ Hu). reflexivity.
Qed.

Lemma space_rejects_tag_outside_frames_witness :
  convert_coord_space example_world 0%nat "mri" None true
      (example_state "mm" (Some t1w_path))
    = (Err (ValueError tag_not_frame_msg), example_state "mm" (Some t1w_path)).
Proof.
  apply (space_rejects_tag_outside_frames example_world 0%nat
           (example_sensors "mm" (Some t1w_path))).
  - reflexivity.
  - unfold MAPPING_COORD_FRAMES. elem_of_literal.
  - apply (bool_decide_eq_false_1 _ (Decision0 := _)). reflexivity.
Defined.

(** X4. The two converters do not chain: what [convert_coord_units] returns for
    target [mm] is tagged [mm], and [convert_coord_space] refuses it for
    every frame. *)
Theorem units_mm_result_refused_by_space (w : World) (l : loc) (s : Sensors)
    (to : string) (subjects_dir : option string) (round verbose verbose' : bool)
    (st : state) (l1 : loc) (st1 : state) :
  heap st !! l = Some s ->
  coord_unit s <> "mm" ->
  convert_coord_units w l "mm" round verbose st = (Ok l1, st1) ->
  to ∈ MAPPING_COORD_FRAMES ->
  convert_coord_space w l1 to subjects_dir verbose' st1
    = (Err (ValueError tag_not_frame_msg), st1).
Proof.
  intros Hl Hne Hrun Hto.
  destruct (convert_coord_units_outcome w l s "mm" verbose st Hl
              ltac:(congruence)) as [(e & st0 & H) | (c & lg & _ & H)];
    rewrite H in Hrun; [discriminate|].
  injection Hrun as <- <-.
  unfold convert_coord_space.
  rewrite (bool_decide_eq_true_2 _ Hto). cbn [negb].
  unfold bind at 1, deref. cbn [heap]. rewrite lookup_snoc.
  reflexivity.
Qed.

Lemma units_mm_result_refused_by_space_witness :
  convert_coord_space example_world 1%nat "tkras" None true
      (snd (convert_coord_units example_world 0%nat "mm" true true
              (example_state "mri" (Some t1w_path))))
    = (Err (ValueError tag_not_frame_msg),
       snd (convert_coord_units example_world 0%nat "mm" true true
              (example_state "mri" (Some t1w_path)))).
Proof.
  apply (units_mm_result_refused_by_space example_world 0%nat
           (example_sensors "mri" (Some t1w_path)) "tkras" None true true true
           (example_state "mri" (Some t1w_path))).
  - reflexivity.
  - discriminate.
  - vm_compute. reflexivity.
  - unfold MAPPING_COORD_FRAMES. elem_of_literal.
Defined.

Lemma space_without_image_runtime_error_witness :
  convert_coord_space example_world 0%nat "tkras" None true (example_state "mri" None)
    = (Err (RuntimeError (need_intended_for_msg example_world
                            (example_sensors "mri" None))),
       example_state "mri" None).
Proof.
  apply (space_without_image_runtime_error example_world 0%nat
           (example_sensors "mri" None)).
  - reflexivity.
  - reflexivity.
  - unfold MAPPING_COORD_FRAMES. elem_of_literal.
  - unfold MAPPING_COORD_FRAMES. simpl. elem_of_literal.
  - discriminate.
Defined.

(** ** Conversions that involve mni *)

(** X5. No call of [convert_coord_space] to or from [mni] returns: in every
    surroundings, with or without subject data, it ends in an exception. *)
Theorem space_with_mni_never_returns (w : World) (l : loc) (s : Sensors) (to : string)
    (subjects_dir : option string) (verbose : bool) (st : state) :
  heap st !! l = Some s ->
  involves_mni s to ->
  exists e st', convert_coord_space w l to subjects_dir verbose st = (Err e, st').
Proof.
  intros Hl [Hne Hmni].
  destruct (convert_coord_space w l to subjects_dir verbose st) as [[l'|e] st'] eqn:Hrun;
    [|eauto].
  exfalso. revert Hrun. apply String.eqb_neq in Hne. unfold convert_coord_space.
  destruct (bool_decide (to ∈ MAPPING_COORD_FRAMES)) eqn:Hto;
    [|run_known; discriminate].
  destruct (bool_decide (coord_unit s ∈ MAPPING_COORD_FRAMES)) eqn:Hunit;
    [|run_known; discriminate].
  destruct (intended_for s) as [p|] eqn:Hp; [|run_known; discriminate].
  destruct (nb_images w p) as [img|] eqn:Himg; [|run_known; discriminate].
  cbn [negb]. unfold bind at 1. rewrite (deref_Some _ _ _ Hl).
  rewrite Hunit. cbn [negb]. rewrite Hne, Hp.
  unfold bind at 1. rewrite (nb_load_Some _ _ _ _ Himg).
  intros Hrun.
  apply bind_inv in Hrun as (c1 & st2 & H1 & Hrun).
  apply bind_inv in Hrun as (c2 & st3 & H2 & _).
  destruct (String.eqb (coord_unit s) "mni") eqn:Hu.
  - apply handle_mni_trans_never_Ok in H1 as [_ [e He]]. discriminate He.
  - destruct Hmni as [->|Hmni]; [|apply String.eqb_neq in Hu; contradiction].
    rewrite String.eqb_refl in H2.
    apply handle_mni_trans_never_Ok in H2 as [_ [e He]]. discriminate He.
Qed.

Lemma space_with_mni_never_returns_witness :
  exists e st',
    convert_coord_space example_world 0%nat "mri" (Some "fs") true
        (example_state "mni" (Some t1w_path)) = (Err e, st').
Proof.
  apply (space_with_mni_never_returns example_world 0%nat
           (example_sensors "mni" (Some t1w_path))).
  - reflexivity.
  - split; [discriminate|]. right. reflexivity.
Defined.

(** A reference image from whose path no subject can be read stops
    [_handle_mni_trans] at once: nothing is read, whatever the subjects
    directory holds. *)
Lemma handle_mni_trans_no_subject (w : World) (c : ndarray) (p : string)
    (subjects_dir : option string) (revert verbose : bool) (st : state) :
  entities_subject w p = None ->
  _handle_mni_trans w c p subjects_dir revert verbose st
    = (Err (RuntimeError (no_subject_msg p)), st).
Proof. intros H. unfold _handle_mni_trans. rewrite H. reflexivity. Qed.

(** X6. A conversion from [mni], or from [mri] to [mni], of sensors whose
    image path carries no subject raises the [RuntimeError] of
    [_handle_mni_trans]: the reference image has been loaded once, no
    subject file has been looked for, whatever the subjects directory is,
    and no object is created. *)
Theorem space_mni_without_subject_raises (w : World) (l : loc) (s : Sensors)
    (to p : string) (img : Image) (subjects_dir : option string) (verbose : bool)
    (st : state) :
  heap st !! l = Some s ->
  to ∈ MAPPING_COORD_FRAMES ->
  (coord_unit s = "mni" /\ to <> "mni") \/ (coord_unit s = "mri" /\ to = "mni") ->
  intended_for s = Some p ->
  nb_images w p = Some img ->
  entities_subject w p = None ->
  convert_coord_space w l to subjects_dir verbose st
    = (Err (RuntimeError (no_subject_msg p)),
       {| heap := heap st; log := log st ++ [EvLoad p] |}).
Proof.
  intros Hl Hto Hcase Hp Himg Hs.
  assert (Hunit : coord_unit s ∈ MAPPING_COORD_FRAMES).
  { unfold MAPPING_COORD_FRAMES.
    destruct Hcase as [[-> _]|[-> _]]; elem_of_literal. }
  assert (Hne : to <> coord_unit s).
  { destruct Hcase as [[-> ?]|[-> ->]]; [done|discriminate]. }
  space_prelude Hl Hto Hunit Hne Hp Himg.
  destruct Hcase as [[Hu _]|[Hu ->]]; rewrite Hu.
  - change (("mni" =? "mni")%string) with true. cbv iota.
    unfold bind at 1. by rewrite handle_mni_trans_no_subject.
  - change (("mri" =? "mni")%string) with false.
    change (("mri" =? "tkras")%string) with false.
    change (("mni" =? "mni")%string) with true. cbv iota.
    unfold bind at 1. unfold ret at 1. unfold bind at 1.
    by rewrite handle_mni_trans_no_subject.
Qed.

(** Another image of the same geometry, under a name without a subject. *)
Lemma space_mni_without_subject_raises_witness :
  convert_coord_space
      {| nb_images := fun _ => Some quarter_mm_image;
         entities_subject := fun _ => None;
         op_isfile := fun _ => true;
         read_mri_info := fun _ => {| trans := mat4_id |};
         read_talxfm := fun _ _ => mat4_id;
         sensors_str := fun _ => "<Sensors>";
         isclose_type_error_msg := isclose_type_error_msg example_world;
         _scale_coordinates := spec_scale_coordinates |}
      0%nat "mni" (Some "fs") true (example_state "mri" (Some "T1w.nii"))
    = (Err (RuntimeError
              "Could not interpret the subject from IntendedFor Image filepath T1w.nii. This file path is possibly not named according to BIDS."),
       {| heap := heap (example_state "mri" (Some "T1w.nii"));
          log := log (example_state "mri" (Some "T1w.nii")) ++ [EvLoad "T1w.nii"] |}).
Proof.
  apply (space_mni_without_subject_raises _ 0%nat
           (example_sensors "mri" (Some "T1w.nii")) "mni" "T1w.nii" quarter_mm_image).
  - reflexivity.
  - unfold MAPPING_COORD_FRAMES. elem_of_literal.
  - right. split; reflexivity.
  - reflexivity.
  - reflexivity.
  - reflexivity.
Defined.

(** X7. With neither [orig.mgz] nor [T1.mgz] under the subject's [mri]
    directory, [_handle_mni_trans] raises the [IOError] that names the
    [T1.mgz] path, before the reference image or any registration file is
    read. *)
Theorem mni_missing_volume_raises (w : World) (c : ndarray) (p d subject : string)
    (revert verbose : bool) (st : state) :
  entities_subject w p = Some subject ->
  op_isfile w (volume_path d subject "orig.mgz") = false ->
  op_isfile w (volume_path d subject "T1.mgz") = false ->
  _handle_mni_trans w c p (Some d) revert verbose st
    = (Err (IOError ("mri not found: " +:+ volume_path d subject "T1.mgz")), st).
Proof.
  intros Hs Ho Ht. unfold _handle_mni_trans, op_join. rewrite Hs.
  unfold bind at 1. unfold ret at 1. unfold bind at 1.
  rewrite Ho. cbn [negb]. unfold ret at 1. rewrite Ht. reflexivity.
Qed.

(** A subjects directory written with its separator at the end: the
    path that is looked for, and named, has one separator there. *)
Lemma mni_missing_volume_raises_witness :
  _handle_mni_trans example_world (NdInt [(1, 0, 0)%Z]) t1w_path (Some "elsewhere/")
      false true (example_state "mri" (Some t1w_path))
    = (Err (IOError "mri not found: elsewhere/01/mri/T1.mgz"),
       example_state "mri" (Some t1w_path)).
Proof.
  apply (mni_missing_volume_raises example_world (NdInt [(1, 0, 0)%Z]) t1w_path
           "elsewhere/" "01").
  - reflexivity.
  - reflexivity.
  - reflexivity.
Defined.

(** X8. [orig.mgz] is preferred: when it exists it is the volume whose affine
    is read, and [T1.mgz] is read only when [orig.mgz] is missing. *)
Theorem mni_reads_orig_before_T1 (w : World) (c : ndarray) (p d subject : string)
    (img : Image) (revert verbose : bool) (st : state) :
  entities_subject w p = Some subject ->
  canonical_volume_exists w d subject ->
  nb_images w p = Some img ->
  log (snd (_handle_mni_trans w c p (Some d) revert verbose st))
    = log st ++
      [EvReadMriInfo (if op_isfile w (volume_path d subject "orig.mgz")
                      then volume_path d subject "orig.mgz"
                      else volume_path d subject "T1.mgz");
       EvLoad p].
Proof.
  intros Hs Hvol Himg. unfold _handle_mni_trans, op_join. rewrite Hs.
  unfold bind at 1. unfold ret at 1. unfold bind at 1.
  destruct (op_isfile w (volume_path d subject "orig.mgz")) eqn:Eo; cbn [negb].
  - unfold ret at 1. rewrite Eo. cbn [negb]. unfold bind, emit. cbn [heap log].
    rewrite (nb_load_Some _ _ _ _ Himg). cbn [np_isclose_any raise snd log heap].
    by rewrite <- app_assoc.
  - destruct Hvol as [Hvol|Hvol]; [congruence|].
    unfold ret at 1. rewrite Hvol. cbn [negb].
    unfold bind, emit. cbn [heap log].
    rewrite (nb_load_Some _ _ _ _ Himg). cbn [np_isclose_any raise snd log heap].
    by rewrite <- app_assoc.
Qed.

(** Only [T1.mgz] exists under [fs]: it is the volume read, then the
    reference image. *)
Lemma mni_reads_orig_before_T1_witness :
  log (snd (_handle_mni_trans example_world (NdInt [(1, 0, 0)%Z]) t1w_path (Some "fs/")
              false true (example_state "mri" (Some t1w_path))))
    = [EvReadMriInfo "fs/01/mri/T1.mgz"; EvLoad t1w_path].
Proof.
  apply (mni_reads_orig_before_T1 example_world (NdInt [(1, 0, 0)%Z]) t1w_path "fs/"
           "01" quarter_mm_image false true (example_state "mri" (Some t1w_path))).
  - reflexivity.
  - right. reflexivity.
  - reflexivity.
Defined.

(** ** The fallback matrix in both directions *)

(** X10. With the fallback matrix the two directions are the axis swaps
    (x, y, z) -> (128 - x, z - 128, 128 - y) and
    (x, y, z) -> (128 - x, 128 - z, y + 128). *)
Theorem tkras_fallback_formulas (c : ndarray) (img : Image) (verbose : bool)
    (st : state) :
  vox2ras_tkr img = None ->
  exists c1 c2,
    fst (_handle_tkras_trans c img false verbose st) = Ok c1 /\
    as_float c1
      = map (fun '(x, y, z) => (fl 128 - x, z - fl 128, fl 128 - y)) (as_float c) /\
    fst (_handle_tkras_trans c img true verbose st) = Ok c2 /\
    as_float c2
      = map (fun '(x, y, z) => (fl 128 - x, fl 128 - z, y + fl 128)) (as_float c).
Proof.
  intros Hnone.
  assert (Ht : tkr_matrix img = fallback_vox2ras_tkr)
    by (unfold tkr_matrix; rewrite Hnone; reflexivity).
  destruct fallback_vox2ras_tkr_invertible as [n Hn].
  destruct (handle_tkras_trans_forward c img verbose st) as [lg1 H1].
  destruct (handle_tkras_trans_revert c img n verbose st) as [lg2 H2];
    [by rewrite Ht|].
  rewrite Ht in H1.
  exists (apply_affine fallback_vox2ras_tkr c), (apply_affine n c).
  rewrite H1, H2. split; [reflexivity|]. split; [|split; [reflexivity|]].
  - rewrite as_float_apply_affine. apply map_ext. intros [[x y] z].
    apply fallback_forward_point.
  - rewrite as_float_apply_affine. apply map_ext. intros [[x y] z].
    (* the inverse is determined by what it undoes *)
    by apply fallback_revert_point.
Qed.

Lemma tkras_fallback_formulas_witness :
  exists c1 c2,
    fst (_handle_tkras_trans (NdInt [(100, 120, 140)%Z]) quarter_mm_image false true
           (example_state "mri" (Some t1w_path))) = Ok c1 /\
    as_float c1
      = map (fun '(x, y, z) => (fl 128 - x, z - fl 128, fl 128 - y))
            (as_float (NdInt [(100, 120, 140)%Z])) /\
    fst (_handle_tkras_trans (NdInt [(100, 120, 140)%Z]) quarter_mm_image true true
           (example_state "mri" (Some t1w_path))) = Ok c2 /\
    as_float c2
      = map (fun '(x, y, z) => (fl 128 - x, fl 128 - z, y + fl 128))
            (as_float (NdInt [(100, 120, 140)%Z])).
Proof.
  apply (tkras_fallback_formulas (NdInt [(100, 120, 140)%Z]) quarter_mm_image true
           (example_state "mri" (Some t1w_path))).
  reflexivity.
Defined.

(** X1. Between [mri] and [tkras], with a reference image whose header
    lacks the lookup, [convert_coord_space] loads the image, warns, prints
    the matrix if verbose, and returns a new object at the end of the heap,
    tagged with the target, whose points are those of the input under the
    fallback matrix: (128 - x, z - 128, 128 - y) towards [tkras],
    (128 - x, 128 - z, y + 128) towards [mri]. *)
Theorem space_mri_tkras_fallback (w : World) (l : loc) (s : Sensors) (p : string)
    (img : Image) (subjects_dir : option string) (verbose : bool) (st : state) :
  heap st !! l = Some s ->
  intended_for s = Some p ->
  nb_images w p = Some img ->
  vox2ras_tkr img = None ->
  let lg := log st ++ [EvLoad p; EvWarn (tkr_warning_msg img)] ++
            (if verbose then [EvPrintTkr fallback_vox2ras_tkr] else []) in
  (coord_unit s = "mri" ->
   convert_coord_space w l "tkras" subjects_dir verbose st
     = (Ok (length (heap st)),
        {| heap := heap st ++
             [converted s
                (NdFloat (map (fun '(x, y, z) => (fl 128 - x, z - fl 128, fl 128 - y))
                              (as_float (coords s)))) "tkras"];
           log := lg |})) /\
  (coord_unit s = "tkras" ->
   convert_coord_space w l "mri" subjects_dir verbose st
     = (Ok (length (heap st)),
        {| heap := heap st ++
             [converted s
                (NdFloat (map (fun '(x, y, z) => (fl 128 - x, fl 128 - z, y + fl 128))
                              (as_float (coords s)))) "mri"];
           log := lg |})).
Proof.
  intros Hl Hp Himg Hnone lg. subst lg.
  destruct fallback_vox2ras_tkr_invertible as [n Hn].
  frame_literals.
  split; intros Hu; destruct verbose;
    unfold convert_coord_space, _handle_tkras_trans; run_known;
    rewrite <- ?app_assoc, ?app_nil_r; cbn [app];
    rewrite ?apply_affine_fallback_forward, ?(apply_affine_fallback_revert n _ Hn);
    reflexivity.
Qed.

(** Voxel (1, 0, 0) towards [tkras], and the same numbers taken as a
    [tkras] point towards [mri]. *)
Lemma space_mri_tkras_fallback_witness :
  convert_coord_space example_world 0%nat "tkras" None true
      (example_state "mri" (Some t1w_path))
    = (Ok 1%nat,
       {| heap := [example_sensors "mri" (Some t1w_path);
                   converted (example_sensors "mri" (Some t1w_path))
                     (NdFloat [(fl 128 - fl 1, fl 0 - fl 128, fl 128 - fl 0)])
                     "tkras"];
          log := [EvLoad t1w_path; EvWarn (tkr_warning_msg quarter_mm_image);
                  EvPrintTkr fallback_vox2ras_tkr] |}) /\
  convert_coord_space example_world 0%nat "mri" None true
      (example_state "tkras" (Some t1w_path))
    = (Ok 1%nat,
       {| heap := [example_sensors "tkras" (Some t1w_path);
                   converted (example_sensors "tkras" (Some t1w_path))
                     (NdFloat [(fl 128 - fl 1, fl 128 - fl 0, fl 0 + fl 128)])
                     "mri"];
          log := [EvLoad t1w_path; EvWarn (tkr_warning_msg quarter_mm_image);
                  EvPrintTkr fallback_vox2ras_tkr] |}).
Proof.
  split.
  - apply (proj1 (space_mri_tkras_fallback example_world 0%nat
                    (example_sensors "mri" (Some t1w_path)) t1w_path quarter_mm_image
                    None true (example_state "mri" (Some t1w_path))
                    eq_refl eq_refl eq_refl eq_refl)).
    reflexivity.
  - apply (proj2 (space_mri_tkras_fallback example_world 0%nat
                    (example_sensors "tkras" (Some t1w_path)) t1w_path quarter_mm_image
                    None true (example_state "tkras" (Some t1w_path))
                    eq_refl eq_refl eq_refl eq_refl)).
    reflexivity.
Defined.

(** ** More on the unit converter *)

(** X11. [np.linalg.inv(affine)] is computed whatever the direction: an image
    whose affine has a row of zeros makes the conversion to [mm] raise as
    well, although that direction only applies the affine itself. *)
Theorem units_singular_affine_raises (w : World) (l : loc) (s : Sensors)
    (to p : string) (img : Image) (round verbose : bool) (st : state) :
  heap st !! l = Some s ->
  to ∈ ["mri"; "mm"] ->
  to <> coord_unit s ->
  intended_for s = Some p ->
  nb_images w p = Some img ->
  has_zero_row (affine img) ->
  convert_coord_units w l to round verbose st
    = (Err (LinAlgError "Singular matrix"),
       {| heap := heap st; log := log st ++ [EvLoad p] |}).
Proof.
  intros Hl Hto Hne Hp Himg Hzero.
  apply String.eqb_neq in Hne. pose proof (bool_decide_eq_true_2 _ Hto) as Hto'.
  pose proof (has_zero_row_singular _ Hzero) as Hn.
  unfold convert_coord_units. run_known. reflexivity.
Qed.

(** An image whose third row is zero, asked for millimetres. *)
Lemma units_singular_affine_raises_witness :
  convert_coord_units
      {| nb_images := fun _ => Some {| affine := ((1, 0, 0, 0), (0, 1, 0, 0),
                                                  (0, 0, 0, 0), (0, 0, 0, 1));
                                       vox2ras_tkr := None;
                                       header_class := "Nifti1Header" |};
         entities_subject := fun _ => None;
         op_isfile := fun _ => false;
         read_mri_info := fun _ => {| trans := mat4_id |};
         read_talxfm := fun _ _ => mat4_id;
         sensors_str := fun _ => "<Sensors>";
         isclose_type_error_msg := isclose_type_error_msg example_world;
         _scale_coordinates := spec_scale_coordinates |}
      0%nat "mm" true false (example_state "mri" (Some t1w_path))
    = (Err (LinAlgError "Singular matrix"),
       {| heap := heap (example_state "mri" (Some t1w_path));
          log := log (example_state "mri" (Some t1w_path)) ++ [EvLoad t1w_path] |}).
Proof.
  apply (units_singular_affine_raises _ 0%nat (example_sensors "mri" (Some t1w_path))
           "mm" t1w_path
           {| affine := ((1, 0, 0, 0), (0, 1, 0, 0), (0, 0, 0, 0), (0, 0, 0, 1));
              vox2ras_tkr := None;
              header_class := "Nifti1Header" |}).
  - reflexivity.
  - elem_of_literal.
  - discriminate.
  - reflexivity.
  - reflexivity.
  - right. right. left. reflexivity.
Defined.





(** X9. A unit conversion that returns has loaded the reference image once
    and, if verbose, printed one line naming the current unit, the target
    and the image path: nothing else is recorded. *)
Theorem units_loads_then_prints (w : World) (l : loc) (s : Sensors) (to p : string)
    (round verbose : bool) (st : state) (l' : loc) (st' : state) :
  heap st !! l = Some s ->
  to <> coord_unit s ->
  intended_for s = Some p ->
  convert_coord_units w l to round verbose st = (Ok l', st') ->
  log st' = log st ++ [EvLoad p] ++
            (if verbose
             then [EvPrint ("Converting coordinates from " +:+ coord_unit s +:+
                            " to " +:+ to +:+ " using " +:+ p +:+ ".")]
             else []).
Proof.
  intros Hl Hne Hp. apply String.eqb_neq in Hne. unfold convert_coord_units.
  destruct (bool_decide (to ∈ ["mri"; "mm"])) eqn:Hto; [|run_known; discriminate].
  destruct (nb_images w p) as [img|] eqn:Himg; [|run_known; discriminate].
  destruct (np_linalg_inv (affine img)) as [n|] eqn:Hn; [|run_known; discriminate].
  destruct verbose, (String.eqb to "mri") eqn:Hmri, (String.eqb to "mm") eqn:Hmm;
    try destruct (_scale_coordinates w (coords s) (coord_unit s) "mm") eqn:Hsc;
    run_known; try discriminate; intros [= <- <-]; cbn [log default];
    rewrite <- ?app_assoc, ?app_nil_r; reflexivity.
Qed.

(** Sensors in [mri] converted to [mm], verbose. *)
Lemma units_loads_then_prints_witness :
  log (snd (convert_coord_units example_world 0%nat "mm" true true
              (example_state "mri" (Some t1w_path))))
    = [EvLoad "sub-01/anat/sub-01_T1w.nii";
       EvPrint "Converting coordinates from mri to mm using sub-01/anat/sub-01_T1w.nii."].
Proof.
  apply (units_loads_then_prints example_world 0%nat
           (example_sensors "mri" (Some t1w_path)) "mm" t1w_path true true
           (example_state "mri" (Some t1w_path)) 1%nat).
  - reflexivity.
  - discriminate.
  - reflexivity.
  - vm_compute. reflexivity.
Defined.

(** ** Failure leaves the objects alone *)

Lemma bind_Err_inv {A B} (m : M A) (k : A -> M B) st e st' :
  bind m k st = (Err e, st') ->
  m st = (Err e, st') \/ exists a st1, m st = (Ok a, st1) /\ k a st1 = (Err e, st').
Proof.
  unfold bind. destruct (m st) as [[a|e0] st1]; [eauto|].
  intros [= <- <-]. by left.
Qed.

Lemma pointwise_of_heap c (m : M ndarray) st r st' :
  pointwise_of c m -> m st = (r, st') -> heap st' = heap st.
Proof. intros Hm H. by apply Hm in H as [Hh _]. Qed.

(** X13. A call of either converter that raises leaves every [Sensors] object as
    it was and creates none: the new object is made only after the last
    statement that can fail. *)
Theorem failed_conversion_keeps_heap (w : World) (l : loc) (to : string)
    (subjects_dir : option string) (round verbose : bool) (st : state)
    (e : exn) (st' : state) :
  convert_coord_units w l to round verbose st = (Err e, st') \/
  convert_coord_space w l to subjects_dir verbose st = (Err e, st') ->
  heap st' = heap st.
Proof.
  intros [Hrun|Hrun]; revert Hrun.
  - unfold convert_coord_units.
    destruct (bool_decide (to ∈ ["mri"; "mm"])) eqn:Hto;
      [|run_known; by intros [= <- <-]].
    destruct (heap st !! l) as [s|] eqn:Hl; [|run_known; by intros [= <- <-]].
    destruct (String.eqb to (coord_unit s)) eqn:Heq; [run_known; discriminate|].
    destruct (intended_for s) as [p|] eqn:Hp; [|run_known; by intros [= <- <-]].
    destruct (nb_images w p) as [img|] eqn:Himg; [|run_known; by intros [= <- <-]].
    destruct (np_linalg_inv (affine img)) as [n|] eqn:Hn;
      [|run_known; by intros [= <- <-]].
    destruct verbose, (String.eqb to "mri") eqn:Hmri, (String.eqb to "mm") eqn:Hmm;
      try destruct (_scale_coordinates w (coords s) (coord_unit s) "mm") eqn:Hsc;
      run_known; first [discriminate | by intros [= <- <-]].
  - unfold convert_coord_space.
    destruct (bool_decide (to ∈ MAPPING_COORD_FRAMES)) eqn:Hto;
      [|run_known; by intros [= <- <-]].
    destruct (heap st !! l) as [s|] eqn:Hl; [|run_known; by intros [= <- <-]].
    destruct (bool_decide (coord_unit s ∈ MAPPING_COORD_FRAMES)) eqn:Hunit;
      [|run_known; by intros [= <- <-]].
    destruct (String.eqb to (coord_unit s)) eqn:Heq; [run_known; discriminate|].
    destruct (intended_for s) as [p|] eqn:Hp; [|run_known; by intros [= <- <-]].
    destruct (nb_images w p) as [img|] eqn:Himg; [|run_known; by intros [= <- <-]].
    cbn [negb]. unfold bind at 1, deref. rewrite Hl.
    rewrite Hunit. cbn [negb]. rewrite Heq, Hp.
    unfold bind at 1. rewrite (nb_load_Some _ _ _ _ Himg).
    intros Hrun.
    apply bind_Err_inv in Hrun as [H1 | (c1 & st2 & H1 & Hrun)].
    { revert H1.
      match goal with |- ?m _ = _ -> _ => assert (P : pointwise_of (get_coords s) m) end.
      { repeat apply pointwise_of_if;
          [apply pointwise_of_mni | apply pointwise_of_tkras | apply pointwise_of_ret]. }
      intros H1. by apply (pointwise_of_heap _ _ _ _ _ P) in H1. }
    assert (Hh1 : heap st2 = heap st).
    { revert H1.
      match goal with |- ?m _ = _ -> _ => assert (P : pointwise_of (get_coords s) m) end.
      { repeat apply pointwise_of_if;
          [apply pointwise_of_mni | apply pointwise_of_tkras | apply pointwise_of_ret]. }
      intros H1. by apply (pointwise_of_heap _ _ _ _ _ P) in H1. }
    apply bind_Err_inv in Hrun as [H2 | (c2 & st3 & H2 & Hrun)].
    + revert H2.
      match goal with |- ?m _ = _ -> _ => assert (P : forall st r st',
          m st = (r, st') -> heap st' = heap st) end.
      { intros sta r stb.
        destruct (String.eqb to "mni");
          [apply (pointwise_of_heap _ _ _ _ _ (pointwise_of_mni _ _ _ _ _ _))|].
        destruct (String.eqb to "tkras"); [|by intros [= <- <-]].
        intros Hb. unfold bind in Hb.
        destruct (bool_decide (coord_unit s ∈ ["mri"; "mni"])); cbn [negb] in Hb.
        - unfold ret in Hb.
          by apply (pointwise_of_heap _ _ _ _ _ (pointwise_of_tkras _ _ _ _)) in Hb.
        - unfold lift in Hb. destruct (_scale_coordinates w c1 (coord_unit s) "mm").
          + by apply (pointwise_of_heap _ _ _ _ _ (pointwise_of_tkras _ _ _ _)) in Hb.
          + by injection Hb as <- <-. }
      intros H2. apply P in H2. congruence.
    + rewrite recreate_run in Hrun. discriminate Hrun.
Qed.

Lemma failed_conversion_keeps_heap_witness :
  heap (snd (convert_coord_space example_world 0%nat "mni" (Some "fs") true
               (example_state "mri" (Some t1w_path))))
    = heap (example_state "mri" (Some t1w_path)).
Proof.
  apply (failed_conversion_keeps_heap example_world 0%nat "mni" (Some "fs") true true
           (example_state "mri" (Some t1w_path))
           (TypeError (isclose_type_error_msg example_world))).
  right. vm_compute. reflexivity.
Defined.

(** ** The frame converter never rescales *)

Lemma bind_ext {A B} (m : M A) (k k' : A -> M B) st :
  (forall a st1, k a st1 = k' a st1) -> bind m k st = bind m k' st.
Proof. intros H. unfold bind. destruct (m st) as [[a|e] st1]; [apply H|reflexivity]. Qed.

(** The call of [_scale_coordinates] in [convert_coord_space] (lines
    143-145) is never reached: a tag that passed the guards and differs
    from the target [tkras] is [mri] or [mni]. *)
Lemma convert_coord_space_with_scale (w : World)
    (f : ndarray -> string -> string -> result ndarray) (l : loc) (to : string)
    (subjects_dir : option string) (verbose : bool) (st : state) :
  convert_coord_space (with_scale f w) l to subjects_dir verbose st
    = convert_coord_space w l to subjects_dir verbose st.
Proof.
  unfold convert_coord_space.
  destruct (bool_decide (to ∈ MAPPING_COORD_FRAMES)) eqn:Hto; [|reflexivity].
  cbn [negb]. apply bind_ext. intros s st0.
  destruct (bool_decide (coord_unit s ∈ MAPPING_COORD_FRAMES)) eqn:Hunit;
    [|reflexivity].
  cbn [negb].
  destruct (String.eqb to (coord_unit s)) eqn:Heq; [reflexivity|].
  destruct (intended_for s) as [p|]; [|reflexivity].
  change (nb_load (with_scale f w)) with (nb_load w).
  apply bind_ext. intros img st1.
  change (_handle_mni_trans (with_scale f w)) with (_handle_mni_trans w).
  apply bind_ext. intros c1 st2.
  destruct (String.eqb to "mni"); [reflexivity|].
  destruct (String.eqb to "tkras") eqn:Htk; [|reflexivity].
  assert (Hin : bool_decide (coord_unit s ∈ ["mri"; "mni"]) = true).
  { apply bool_decide_eq_true_2. apply bool_decide_eq_true_1 in Hunit.
    apply String.eqb_eq in Htk. subst to. apply String.eqb_neq in Heq.
    unfold MAPPING_COORD_FRAMES in Hunit.
    apply elem_of_cons in Hunit as [Hu|Hunit]; [rewrite Hu; elem_of_literal|].
    apply elem_of_cons in Hunit as [Hu|Hunit]; [congruence|].
    apply list_elem_of_singleton in Hunit. rewrite Hunit. elem_of_literal. }
  rewrite Hin. reflexivity.
Qed.

(** X14. Whatever [_scale_coordinates] does, the frame converter behaves the
    same: two surroundings that differ in that helper only give the same
    outcome, state included. *)
Theorem space_independent_of_scaling (w : World)
    (f g : ndarray -> string -> string -> result ndarray) (l : loc) (to : string)
    (subjects_dir : option string) (verbose : bool) (st : state) :
  convert_coord_space (with_scale f w) l to subjects_dir verbose st
    = convert_coord_space (with_scale g w) l to subjects_dir verbose st.
Proof. by rewrite !convert_coord_space_with_scale. Qed.

(** ** Verbosity is observation only *)

Lemma log_blind_ret {A} (a : A) : log_blind (ret a) (ret a).
Proof. by intros st st' Hh. Qed.

Lemma log_blind_raise {A} (e : exn) : log_blind (@raise A e) (raise e).
Proof. by intros st st' Hh. Qed.

Lemma log_blind_lift {A} (r : result A) : log_blind (lift r) (lift r).
Proof. by intros st st' Hh. Qed.

Lemma log_blind_bind {A B} (m m' : M A) (k k' : A -> M B) :
  log_blind m m' -> (forall a, log_blind (k a) (k' a)) ->
  log_blind (bind m k) (bind m' k').
Proof.
  intros Hm Hk st st' Hh. unfold bind. specialize (Hm st st' Hh).
  destruct (m st) as [[a|e] s1], (m' st') as [[a'|e'] s1'];
    cbn [fst snd] in Hm; destruct Hm as [Hr Hh']; try discriminate Hr.
  - injection Hr as <-. by apply Hk.
  - injection Hr as <-. done.
Qed.

Lemma log_blind_if {A} (b : bool) (m1 m1' m2 m2' : M A) :
  log_blind m1 m1' -> log_blind m2 m2' ->
  log_blind (if b then m1 else m2) (if b then m1' else m2').
Proof. by destruct b. Qed.

Lemma log_blind_print (v v' : bool) (e e' : event) :
  log_blind (if v then emit e else ret ()) (if v' then emit e' else ret ()).
Proof. intros st st' Hh. by destruct v, v'. Qed.

Lemma log_blind_emit (e : event) : log_blind (emit e) (emit e).
Proof. by intros st st' Hh. Qed.

Lemma log_blind_deref (l : loc) : log_blind (deref l) (deref l).
Proof.
  intros st st' Hh. unfold deref. rewrite Hh. by destruct (heap st' !! l).
Qed.

Lemma log_blind_new_Sensors (s : Sensors) : log_blind (new_Sensors s) (new_Sensors s).
Proof. intros st st' Hh. unfold new_Sensors. cbn [fst snd heap]. by rewrite Hh. Qed.

Lemma log_blind_update (l : loc) (f : Sensors -> Sensors) :
  log_blind (update l f) (update l f).
Proof.
  intros st st' Hh. unfold update. rewrite Hh.
  destruct (heap st' !! l); cbn [fst snd heap]; done.
Qed.

Lemma log_blind_nb_load (w : World) (path : option string) :
  log_blind (nb_load w path) (nb_load w path).
Proof.
  unfold nb_load. destruct path as [p|]; [|apply log_blind_raise].
  destruct (nb_images w p); [|apply log_blind_raise].
  apply log_blind_bind; [apply log_blind_emit|]. intros _. apply log_blind_ret.
Qed.

Lemma log_blind_linalg_inv (m : mat4) : log_blind (linalg_inv m) (linalg_inv m).
Proof.
  unfold linalg_inv. destruct (np_linalg_inv m);
    [apply log_blind_ret | apply log_blind_raise].
Qed.

Lemma log_blind_array_truth (b : list bool) : log_blind (array_truth b) (array_truth b).
Proof.
  unfold array_truth. destruct b as [|x [|y b]];
    first [apply log_blind_ret | apply log_blind_raise].
Qed.

Lemma log_blind_np_isclose_any w a b :
  log_blind (np_isclose_any w a b) (np_isclose_any w a b).
Proof.
  unfold np_isclose_any. destruct b; [apply log_blind_ret | apply log_blind_raise].
Qed.

Lemma log_blind_op_join sd subject name :
  log_blind (op_join sd subject name) (op_join sd subject name).
Proof. unfold op_join. destruct sd; [apply log_blind_ret | apply log_blind_raise]. Qed.

Lemma log_blind_tkras c img revert v v' :
  log_blind (_handle_tkras_trans c img revert v) (_handle_tkras_trans c img revert v').
Proof.
  unfold _handle_tkras_trans.
  apply log_blind_bind.
  { destruct (vox2ras_tkr img); [apply log_blind_ret|].
    apply log_blind_bind; [apply log_blind_emit|]. intros _. apply log_blind_ret. }
  intros t. apply log_blind_bind; [apply log_blind_print|]. intros _.
  apply log_blind_bind.
  { apply log_blind_if; [apply log_blind_linalg_inv | apply log_blind_ret]. }
  intros m. apply log_blind_ret.
Qed.

Lemma log_blind_mni w c p sd revert v v' :
  log_blind (_handle_mni_trans w c p sd revert v) (_handle_mni_trans w c p sd revert v').
Proof.
  unfold _handle_mni_trans.
  destruct (entities_subject w p) as [subject|]; [|apply log_blind_raise].
  apply log_blind_bind; [apply log_blind_op_join|]. intros path.
  apply log_blind_bind.
  { apply log_blind_if; [apply log_blind_op_join | apply log_blind_ret]. }
  intros path'. apply log_blind_if; [apply log_blind_raise|].
  apply log_blind_bind; [apply log_blind_emit|]. intros _.
  apply log_blind_bind; [apply log_blind_nb_load|]. intros img.
  apply log_blind_bind; [apply log_blind_np_isclose_any|]. intros isclose.
  apply log_blind_bind; [apply log_blind_array_truth|]. intros close.
  apply log_blind_if; [apply log_blind_raise|].
  apply log_blind_bind; [apply log_blind_emit|]. intros _.
  apply log_blind_bind.
  { apply log_blind_if; [apply log_blind_linalg_inv | apply log_blind_ret]. }
  intros m. apply log_blind_ret.
Qed.

Lemma log_blind_recreate (s : Sensors) (c : ndarray) (u : string) :
  log_blind (sensors <- new_Sensors s ;; set_coords sensors c ;;;
             set_coord_unit sensors u ;;; ret sensors)
            (sensors <- new_Sensors s ;; set_coords sensors c ;;;
             set_coord_unit sensors u ;;; ret sensors).
Proof.
  apply log_blind_bind; [apply log_blind_new_Sensors|]. intros l.
  apply log_blind_bind; [apply log_blind_update|]. intros _.
  apply log_blind_bind; [apply log_blind_update|]. intros _.
  apply log_blind_ret.
Qed.

Lemma log_blind_units w l to round v v' :
  log_blind (convert_coord_units w l to round v) (convert_coord_units w l to round v').
Proof.
  unfold convert_coord_units.
  apply log_blind_if; [apply log_blind_raise|].
  apply log_blind_bind; [apply log_blind_deref|]. intros s.
  apply log_blind_if; [apply log_blind_ret|].
  apply log_blind_bind; [apply log_blind_nb_load|]. intros img.
  apply log_blind_bind; [apply log_blind_linalg_inv|]. intros n.
  apply log_blind_bind; [apply log_blind_print|]. intros _.
  apply log_blind_bind.
  { apply log_blind_if.
    - apply log_blind_bind; [apply log_blind_lift|]. intros c. apply log_blind_ret.
    - apply log_blind_if; apply log_blind_ret. }
  intros c. apply log_blind_recreate.
Qed.

Lemma log_blind_space w l to sd v v' :
  log_blind (convert_coord_space w l to sd v) (convert_coord_space w l to sd v').
Proof.
  unfold convert_coord_space.
  apply log_blind_if; [apply log_blind_raise|].
  apply log_blind_bind; [apply log_blind_deref|]. intros s.
  apply log_blind_if; [apply log_blind_raise|].
  apply log_blind_if; [apply log_blind_ret|].
  destruct (intended_for s) as [p|]; [|apply log_blind_raise].
  apply log_blind_bind; [apply log_blind_nb_load|]. intros img.
  apply log_blind_bind.
  { apply log_blind_if; [apply log_blind_mni|].
    apply log_blind_if; [apply log_blind_tkras | apply log_blind_ret]. }
  intros c1. apply log_blind_bind.
  { apply log_blind_if; [apply log_blind_mni|].
    apply log_blind_if; [|apply log_blind_ret].
    apply log_blind_bind; [|intros c; apply log_blind_tkras].
    apply log_blind_if; [apply log_blind_lift | apply log_blind_ret]. }
  intros c2. apply log_blind_recreate.
Qed.

(** X16. [verbose] changes what is printed and nothing else: with either value
    both converters return the same reference or raise the same exception,
    and leave the same objects. *)
Theorem verbose_changes_only_the_log (w : World) (l : loc) (to : string)
    (subjects_dir : option string) (round v v' : bool) (st : state) :
  (fst (convert_coord_units w l to round v st)
     = fst (convert_coord_units w l to round v' st) /\
   heap (snd (convert_coord_units w l to round v st))
     = heap (snd (convert_coord_units w l to round v' st))) /\
  (fst (convert_coord_space w l to subjects_dir v st)
     = fst (convert_coord_space w l to subjects_dir v' st) /\
   heap (snd (convert_coord_space w l to subjects_dir v st))
     = heap (snd (convert_coord_space w l to subjects_dir v' st))).
Proof.
  split; [by apply log_blind_units | by apply log_blind_space].
Qed.

(** ** Converting twice *)

(** The shape of a successful conversion to another frame, whatever
    [_scale_coordinates] is. *)
Lemma convert_coord_space_Ok_new w l s to sd verbose st l' st' :
  heap st !! l = Some s ->
  to <> coord_unit s ->
  convert_coord_space w l to sd verbose st = (Ok l', st') ->
  exists c lg,
    l' = length (heap st) /\
    st' = {| heap := heap st ++ [converted s c to]; log := lg |}.
Proof.
  intros Hl Hne Hrun.
  rewrite <- (convert_coord_space_with_scale w spec_scale_coordinates) in Hrun.
  destruct (convert_coord_space_Ok (with_scale spec_scale_coordinates w)
              l s to sd verbose st l' st' Hl Hne
              spec_scale_pointwise Hrun) as (c & lg & -> & -> & _).
  eauto.
Qed.

(** X17. Asking again for the target of a successful conversion changes
    nothing: after a call of the unit converter that returned, a second
    call with the same target returns the reference the first one returned
    and leaves the state as the first one left it; and so for the frame
    converter. *)
Theorem repeated_conversion_is_identity (w : World) (l : loc) (to_unit to_frame : string)
    (subjects_dir : option string) (round round' v v' : bool) (st : state) :
  (forall (lu : loc) (stu : state),
     convert_coord_units w l to_unit round v st = (Ok lu, stu) ->
     convert_coord_units w lu to_unit round' v' stu = (Ok lu, stu)) /\
  (forall (lf : loc) (stf : state),
     convert_coord_space w l to_frame subjects_dir v st = (Ok lf, stf) ->
     convert_coord_space w lf to_frame subjects_dir v' stf = (Ok lf, stf)).
Proof.
  split.
  - intros lu stu Hu. pose proof Hu as Hu'. revert Hu.
    unfold convert_coord_units at 1.
    destruct (bool_decide (to_unit ∈ ["mri"; "mm"])) eqn:Hto;
      [|run_known; discriminate].
    destruct (heap st !! l) as [s|] eqn:Hl; [|run_known; discriminate].
    destruct (String.eqb to_unit (coord_unit s)) eqn:Heq.
    + run_known. intros [= <- <-].
      unfold convert_coord_units. run_known. reflexivity.
    + intros _. apply String.eqb_neq in Heq.
      destruct (convert_coord_units_outcome w l s to_unit v st Hl Heq)
        as [(e & st0 & H) | (c & lg & _ & H)]; rewrite H in Hu'; [discriminate|].
      injection Hu' as <- <-.
      unfold convert_coord_units. rewrite Hto. cbn [negb].
      unfold bind, deref. cbn [heap]. rewrite lookup_snoc.
      cbn [converted with_coord_unit coord_unit]. by rewrite String.eqb_refl.
  - intros lf stf Hf. pose proof Hf as Hf'. revert Hf.
    unfold convert_coord_space at 1.
    destruct (bool_decide (to_frame ∈ MAPPING_COORD_FRAMES)) eqn:Hto;
      [|run_known; discriminate].
    destruct (heap st !! l) as [s|] eqn:Hl; [|run_known; discriminate].
    destruct (bool_decide (coord_unit s ∈ MAPPING_COORD_FRAMES)) eqn:Hunit;
      [|run_known; discriminate].
    destruct (String.eqb to_frame (coord_unit s)) eqn:Heq.
    + run_known. intros [= <- <-].
      unfold convert_coord_space. run_known. reflexivity.
    + intros _. apply String.eqb_neq in Heq.
      destruct (convert_coord_space_Ok_new w l s to_frame subjects_dir v st lf stf
                  Hl Heq Hf') as (c & lg & -> & ->).
      unfold convert_coord_space. rewrite Hto. cbn [negb].
      unfold bind, deref. cbn [heap]. rewrite lookup_snoc.
      cbn [converted with_coord_unit coord_unit]. rewrite Hto. cbn [negb].
      by rewrite String.eqb_refl.
Qed.

(** Sensors in millimetres converted to voxels and asked for voxels again;
    sensors in [mri] converted to [tkras] and asked for [tkras] again. *)
Lemma repeated_conversion_is_identity_witness :
  convert_coord_units example_world 1%nat "mri" false false
      (snd (convert_coord_units example_world 0%nat "mri" true true
              (example_state "mm" (Some t1w_path))))
    = (Ok 1%nat,
       snd (convert_coord_units example_world 0%nat "mri" true true
              (example_state "mm" (Some t1w_path)))) /\
  convert_coord_space example_world 1%nat "tkras" None false
      (snd (convert_coord_space example_world 0%nat "tkras" None true
              (example_state "mri" (Some t1w_path))))
    = (Ok 1%nat,
       snd (convert_coord_space example_world 0%nat "tkras" None true
              (example_state "mri" (Some t1w_path)))).
Proof.
  split.
  - apply (proj1 (repeated_conversion_is_identity example_world 0%nat "mri" "tkras"
                    None true false true false (example_state "mm" (Some t1w_path)))).
    vm_compute. reflexivity.
  - apply (proj2 (repeated_conversion_is_identity example_world 0%nat "mm" "tkras"
                    None true false true false (example_state "mri" (Some t1w_path)))).
    vm_compute. reflexivity.
Defined.
